(** * zartigl data-preparation scripts: catalogue builder and array transcoder

    A shallow embedding of [scripts/build_catalog.py] and
    [scripts/subset_zarr.py], and the properties their specification
    states about them.

    Python values are modelled as the scripts use them:
    - a [float] is an IEEE 754 binary64 number ([spec_float] with
      precision 53 and maximal exponent 1024), with Python's conversions
      [bool(x)] and [int(x)] written out;
    - a [dict] whose keys are computed is a [gmap string _]; a dict with a
      fixed set of keys is a record;
    - a raised exception is the [Raise] branch of [result]; nothing in
      either script catches one. *)

From Stdlib Require Import ZArith QArith Qround.
From Stdlib Require Import Floats.SpecFloat.
From stdpp Require Import gmap strings list sorting.

Open Scope Z_scope.

(** ** Exceptions and the error monad *)

Inductive exn : Type :=
  | IndexError
  | KeyError (key : string)
  | TypeError
  | ValueError
  | OverflowError
  | ZeroDivisionError
  | InvalidIndexError
  | AttributeError (name : string)
  | ProviderError (msg : string).

Inductive result (A : Type) : Type :=
  | Ok (a : A)
  | Raise (e : exn).
Arguments Ok {A} a.
Arguments Raise {A} e.

(** Sequencing: an exception raised by the first computation is the
    outcome of the whole. Written [x ← r; k] below. *)
#[global] Instance result_bind : MBind result := fun A B k r =>
  match r with
  | Ok a => k a
  | Raise e => Raise e
  end.

(** [l[0]]: the first element, or [IndexError] on an empty list. *)
Definition item0 {A : Type} (l : list A) : result A :=
  match l with
  | x :: _ => Ok x
  | [] => Raise IndexError
  end.

(** ** Python floats *)

Abbreviation float := spec_float.

Definition prec : Z := 53.
Definition emax : Z := 1024.

Definition float_of_Z (z : Z) : float := binary_normalize prec emax z 0 false.

(** [x - y] on floats never raises. *)
Definition float_sub (x y : float) : float := SFsub prec emax x y.

(** [x / y] raises [ZeroDivisionError] on a zero divisor (of either sign). *)
Definition float_div (x y : float) : result float :=
  match y with
  | S754_zero _ => Raise ZeroDivisionError
  | _ => Ok (SFdiv prec emax x y)
  end.

(** [bool(x)]: false exactly on the two zeros; a NaN is true. *)
Definition float_bool (x : float) : bool :=
  match x with
  | S754_zero _ => false
  | _ => true
  end.

(** [int(x)]: truncation toward zero; [OverflowError] on an infinity,
    [ValueError] on a NaN. The value of a finite float is
    [(-1)^s * m * 2^e]; [Z.shiftl] by a negative amount is the shift to
    the right, which on a positive mantissa drops the fraction. *)
Definition float_int (x : float) : result Z :=
  match x with
  | S754_zero _ => Ok 0
  | S754_infinity _ => Raise OverflowError
  | S754_nan => Raise ValueError
  | S754_finite s m e => Ok (cond_Zopp s (Z.shiftl (Z.pos m) e))
  end.

(** [math.floor(x)]: rounding toward minus infinity, with the errors of
    [int]. Not used by the scripts; it is the operation the specification
    names in its size formula. *)
Definition float_floor (x : float) : result Z :=
  match x with
  | S754_zero _ => Ok 0
  | S754_infinity _ => Raise OverflowError
  | S754_nan => Raise ValueError
  | S754_finite s m e => Ok (Z.shiftl (cond_Zopp s (Z.pos m)) e)
  end.

(** The sign bit is clear: a float that is zero or positive. *)
Definition float_nonneg (x : float) : bool :=
  match x with
  | S754_zero _ => true
  | S754_finite false _ _ => true
  | _ => false
  end.

(** ** build_catalog.py *)

Module build_catalog.

(** *** The metadata the provider returns

    [copernicusmarine.describe] returns a hierarchy of objects; the script
    reads the attributes below. An attribute the provider types as
    optional is an [option]. *)

Record Coordinate : Type := {
  coordinate_id : string;
  axis : string;
  values : option (list float);
  minimum_value : option float;
  maximum_value : option float;
  step : option float;
  chunking_length : option float;
  coordinate_unit : option string;
}.

Record Variable_ : Type := {
  short_name : string;
  standard_name : option string;
  units : option string;
  coordinates : list Coordinate;
}.

Record Service : Type := {
  service_name : string;
  service_format : option string;
  uri : string;
  variables : list Variable_;
}.

Record Part : Type := { services : list Service }.
Record Version : Type := { parts : list Part }.
Record Dataset : Type := { versions : list Version }.
Record Product : Type := { product_id : string; datasets : list Dataset }.
Record Catalogue : Type := { products : list Product }.

(** *** Targets *)

Record Target : Type := {
  dataset_id : string;
  label : string;
  target_variables : list string;
  preferred_service : string;
}.

Definition TARGETS : list Target :=
  [ {| dataset_id := "cmems_mod_glo_phy-cur_anfc_0.083deg_PT6H-i";
       label := "Global Ocean Currents (analysis+forecast)";
       target_variables := ["uo"; "vo"];
       preferred_service := "arco-geo-series" |} ].

(** *** What the script emits *)

(** The values stored in a dimension descriptor. *)
Inductive pyval : Type :=
  | PyNone
  | PyInt (z : Z)
  | PyFloat (x : float)
  | PyStr (s : string)
  | PyList (l : list float).

(** The dict of one variable: both keys are always set. *)
Record VariableInfo : Type := {
  vi_standard_name : option string;
  vi_units : option string;
}.

(** The dict [build_entry] returns: its six keys are always set. *)
Record Entry : Type := {
  e_id : string;
  e_product : string;
  e_label : string;
  e_zarr_url : string;
  e_variables : gmap string VariableInfo;
  e_dimensions : gmap string (gmap string pyval);
}.

Record Catalog : Type := {
  generated : string;
  catalog_datasets : list Entry;
}.

(** *** build_entry *)

(** [if x is not None: d[k] = f(x)]. *)
Definition set_if_some {A : Type} (k : string) (f : A -> pyval)
    (x : option A) (d : gmap string pyval) : gmap string pyval :=
  match x with
  | Some a => <[k := f a]> d
  | None => d
  end.

(** [if coord.coordinate_unit]: a unit that is reported and not empty. *)
Definition unit_truthy (u : option string) : option string :=
  match u with
  | Some s => if decide (s = "") then None else Some s
  | None => None
  end.

(** [a - b] where either operand may be [None]: [TypeError] then. *)
Definition opt_sub (a b : option float) : result float :=
  match a, b with
  | Some x, Some y => Ok (float_sub x y)
  | _, _ => Raise TypeError
  end.

(** Lines 88-92: the conditional expression assigned to [dim["size"]]. *)
Definition range_size (c : Coordinate) : result pyval :=
  match step c with
  | Some st =>
      if float_bool st then
        d ← opt_sub (maximum_value c) (minimum_value c);
        q ← float_div d st;
        n ← float_int q;
        Ok (PyInt (n + 1))
      else Ok PyNone
  | None => Ok PyNone
  end.

(** Lines 82-103: the body of the loop over the coordinates. *)
Definition build_dim (c : Coordinate) : result (gmap string pyval) :=
  let dim : gmap string pyval := {[ "axis" := PyStr (axis c) ]} in
  dim ←
    match values c with
    | Some vs =>
        Ok (<["size" := PyInt (Z.of_nat (length vs))]>
              (<["values" := PyList vs]> dim))
    | None =>
        sz ← range_size c;
        Ok (set_if_some "step" PyFloat (step c)
             (set_if_some "max" PyFloat (maximum_value c)
               (set_if_some "min" PyFloat (minimum_value c)
                 (<["size" := sz]> dim))))
    end;
  Ok (set_if_some "units" PyStr (unit_truthy (coordinate_unit c))
       (set_if_some "chunk_size" PyFloat (chunking_length c) dim)).

(** Lines 80-105: the loop, [dimensions[coord.coordinate_id] = dim]. *)
Fixpoint build_dimensions (dimensions : gmap string (gmap string pyval))
    (coords : list Coordinate) : result (gmap string (gmap string pyval)) :=
  match coords with
  | [] => Ok dimensions
  | c :: rest =>
      dim ← build_dim c;
      build_dimensions (<[coordinate_id c := dim]> dimensions) rest
  end.

(** Lines 70-76: the requested variables of the service. *)
Fixpoint build_variables (wanted : list string)
    (vars : gmap string VariableInfo) (vs : list Variable_)
    : gmap string VariableInfo :=
  match vs with
  | [] => vars
  | v :: rest =>
      build_variables wanted
        (if decide (short_name v ∈ wanted)
         then <[short_name v :=
                  {| vi_standard_name := standard_name v;
                     vi_units := units v |}]> vars
         else vars)
        rest
  end.

(** Lines 57-61: the first service with the preferred name. *)
Fixpoint find_service (name : string) (l : list Service) : option Service :=
  match l with
  | [] => None
  | s :: rest =>
      if decide (service_name s = name) then Some s
      else find_service name rest
  end.

Section WithProvider.

(** [copernicusmarine.describe(dataset_id=..., disable_progress_bar=True)]:
    the remote metadata provider, which either returns a catalogue or
    raises. *)
Variable describe : string -> result Catalogue.

(** [build_entry]; the [print] calls are left out. [None] is the absent
    entry. *)
Definition build_entry (target : Target) : result (option Entry) :=
  cat ← describe (dataset_id target);
  match products cat with
  | [] => Ok None
  | _ :: _ =>
      prod ← item0 (products cat);
      ds ← item0 (datasets prod);
      ver ← item0 (versions ds);
      part ← item0 (parts ver);
      match find_service (preferred_service target) (services part) with
      | None => Ok None
      | Some svc =>
          if decide (service_format svc = Some "zarr") then
            let vars := build_variables (target_variables target) ∅
                          (variables svc) in
            ref_var ← item0 (variables svc);
            dimensions ← build_dimensions ∅ (coordinates ref_var);
            Ok (Some {| e_id := dataset_id target;
                        e_product := product_id prod;
                        e_label := label target;
                        e_zarr_url := uri svc;
                        e_variables := vars;
                        e_dimensions := dimensions |})
          else Ok None
      end
  end.

(** Lines 120-124 of [main]: the loop over the targets. An entry is a
    dict of six keys, so [if entry] is false on [None] only. *)
Fixpoint collect_entries (entries : list Entry) (targets : list Target)
    : result (list Entry) :=
  match targets with
  | [] => Ok entries
  | target :: rest =>
      entry ← build_entry target;
      collect_entries
        (match entry with
         | Some e => entries ++ [e]
         | None => entries
         end)
        rest
  end.

(** [main], over a list of targets and the time stamp of the run: the
    catalog that is written to [OUTPUT]. *)
Definition build_catalog (targets : list Target) (now : string)
    : result Catalog :=
  entries ← collect_entries [] targets;
  Ok {| generated := now; catalog_datasets := entries |}.

Definition main (now : string) : result Catalog := build_catalog TARGETS now.

End WithProvider.

(** *** Vocabulary of the properties *)

(** The delivery part [build_entry] reads: first product, first dataset,
    first version, first part, when each of them exists. *)
Definition delivery_part (cat : Catalogue) : option (Product * Part) :=
  prod ← head (products cat);
  ds ← head (datasets prod);
  ver ← head (versions ds);
  part ← head (parts ver);
  Some (prod, part).

Definition float_finite (x : float) : bool :=
  match x with
  | S754_zero _ | S754_finite _ _ _ => true
  | S754_infinity _ | S754_nan => false
  end.

(** The coordinates whose descriptor can be computed: a coordinate without
    explicit values and with a non-zero step must report both bounds, and
    the quotient [(max - min) / step] must be a finite float. *)
Definition range_ok (c : Coordinate) : bool :=
  match values c, step c with
  | Some _, _ => true
  | None, None => true
  | None, Some st =>
      negb (float_bool st) ||
      match minimum_value c, maximum_value c with
      | Some lo, Some hi => float_finite (SFdiv prec emax (float_sub hi lo) st)
      | _, _ => false
      end
  end.

(** The coordinate at position [i] is the last one of the list with its
    identifier, so that its descriptor is not overwritten by a later one. *)
Definition last_with_id (cs : list Coordinate) (i : nat) (c : Coordinate)
    : Prop :=
  cs !! i = Some c ∧
  ∀ j c', (i < j)%nat → cs !! j = Some c' → coordinate_id c' ≠ coordinate_id c.

Definition has_values (d : gmap string pyval) : Prop := is_Some (d !! "values").

Definition has_range (d : gmap string pyval) : Prop :=
  is_Some (d !! "min") ∨ is_Some (d !! "max") ∨ is_Some (d !! "step").

(** The size rule as the specification words it: [floor((max-min)/step)+1]
    whenever a step is reported, and null only when none is. *)
Definition size_as_specified (c : Coordinate) (dim : gmap string pyval)
    : Prop :=
  (∀ st lo hi q f,
     step c = Some st → minimum_value c = Some lo →
     maximum_value c = Some hi →
     float_div (float_sub hi lo) st = Ok q → float_floor q = Ok f →
     dim !! "size" = Some (PyInt (f + 1))) ∧
  (dim !! "size" = Some PyNone → step c = None).

(** The invariant as the specification words it: exactly one of the
    explicit values and the range is populated. *)
Definition exactly_one_populated (dim : gmap string pyval) : Prop :=
  (has_values dim ∧ ¬ has_range dim) ∨ (¬ has_values dim ∧ has_range dim).

(** The per-target boundary as the specification words it: a target whose
    provider call raises is treated as absent, so that the build over the
    targets gives what it gives without that target. *)
Definition fault_is_skipped (describe : string -> result Catalogue)
    (before : list Target) (t : Target) (after : list Target) (now : string)
    : Prop :=
  build_catalog describe (before ++ t :: after) now =
  build_catalog describe (before ++ after) now.


(** *** Sample metadata *)

Definition range_coordinate (id ax : string) (lo hi st : option float)
    : Coordinate :=
  {| coordinate_id := id; axis := ax; values := None;
     minimum_value := lo; maximum_value := hi; step := st;
     chunking_length := None; coordinate_unit := None |}.

(** A regular axis from 0 to 10 in steps of 2. *)
Definition regular_axis : Coordinate :=
  range_coordinate "longitude" "x"
    (Some (float_of_Z 0)) (Some (float_of_Z 10)) (Some (float_of_Z 2)).

(** An axis with the explicit values 1, 2, 3, which also reports bounds. *)
Definition explicit_axis : Coordinate :=
  {| coordinate_id := "depth"; axis := "z";
     values := Some [float_of_Z 1; float_of_Z 2; float_of_Z 3];
     minimum_value := Some (float_of_Z 1);
     maximum_value := Some (float_of_Z 3);
     step := None;
     chunking_length := Some (float_of_Z 1);
     coordinate_unit := Some "m" |}.

(** A one-point axis that reports the step 0. *)
Definition zero_step_axis : Coordinate :=
  range_coordinate "depth" "z"
    (Some (float_of_Z 5)) (Some (float_of_Z 5)) (Some (float_of_Z 0)).

(** An axis from 0 to 1 whose step is reported as -2: the quotient
    [(1 - 0) / -2] is -0.5. *)
Definition descending_axis : Coordinate :=
  range_coordinate "latitude" "y"
    (Some (float_of_Z 0)) (Some (float_of_Z 1)) (Some (float_of_Z (-2))).

(** An axis for which the provider reports neither values nor a range. *)
Definition bare_axis : Coordinate :=
  range_coordinate "time" "t" None None None.

Definition sample_service (name : string) (fmt : option string)
    (cs : list Coordinate) : Service :=
  {| service_name := name; service_format := fmt;
     uri := "https://example.org/" +:+ name;
     variables :=
       [ {| short_name := "uo";
            standard_name := Some "eastward_sea_water_velocity";
            units := Some "m s-1"; coordinates := cs |};
         {| short_name := "thetao";
            standard_name := Some "sea_water_potential_temperature";
            units := Some "degrees_C"; coordinates := [] |} ] |}.

Definition sample_catalogue (svcs : list Service) : Catalogue :=
  {| products :=
       [ {| product_id := "GLOBAL_ANALYSISFORECAST_PHY_001_024";
            datasets :=
              [ {| versions := [ {| parts := [ {| services := svcs |} ] |} ] |} ]
         |} ] |}.

Definition sample_now : string := "2026-01-01T00:00:00+00:00".

Definition sample_target (id : string) : Target :=
  {| dataset_id := id; label := "Sample"; target_variables := ["uo"; "vo"];
     preferred_service := "arco-geo-series" |}.

(** A provider that knows six datasets and fails on every other
    identifier. *)
Definition sample_describe (id : string) : result Catalogue :=
  if decide (id = "regular") then
    Ok (sample_catalogue
          [ sample_service "arco-time-series" (Some "zarr") [];
            sample_service "arco-geo-series" (Some "zarr")
              [regular_axis; explicit_axis] ])
  else if decide (id = "irregular") then
    Ok (sample_catalogue
          [ sample_service "arco-geo-series" (Some "zarr")
              [zero_step_axis; descending_axis; bare_axis] ])
  else if decide (id = "sqlite-only") then
    Ok (sample_catalogue
          [ sample_service "arco-geo-series" (Some "sqlite") [regular_axis] ])
  else if decide (id = "empty") then
    Ok {| products := [] |}
  else if decide (id = "no-datasets") then
    Ok {| products := [ {| product_id := "P"; datasets := [] |} ] |}
  else if decide (id = "no-variables") then
    Ok (sample_catalogue
          [ {| service_name := "arco-geo-series";
               service_format := Some "zarr";
               uri := "https://example.org/empty"; variables := [] |} ])
  else Raise (ProviderError "unknown dataset").


(** An axis that reports a step and a maximum but no minimum, and a
    provider whose only dataset has it after a regular axis. *)
Definition unbounded_axis : Coordinate :=
  range_coordinate "latitude" "y"
    None (Some (float_of_Z 90)) (Some (float_of_Z 1)).

Definition unbounded_describe (id : string) : result Catalogue :=
  Ok (sample_catalogue
        [ sample_service "arco-geo-series" (Some "zarr")
            [regular_axis; unbounded_axis; explicit_axis] ]).


(** A provider whose only dataset reports two coordinates under the
    identifier "depth". *)
Definition duplicate_describe (id : string) : result Catalogue :=
  Ok (sample_catalogue
        [ sample_service "arco-geo-series" (Some "zarr")
            [zero_step_axis; regular_axis; explicit_axis] ]).

End build_catalog.

(** ** subset_zarr.py *)

Module subset_zarr.

Definition DATASET_ID : string := "cmems_mod_glo_phy-cur_anfc_0.083deg_PT6H-i".
Definition VARIABLES : list string := ["uo"; "vo"].

(** *** Arrays and datasets

    The script handles its data through [xarray]. The operations it calls
    are modelled on the values they compute:
    - a cell is a rational number, or missing (NaN, NaT): every binary
      floating point value is one. The two operations of the script that
      round, the mean over a block and the cast to [float32], are
      parameters of [main]: what they return is not computed here;
    - the elements of an n-dimensional array are the nested lists of its
      [tolist()], kept together with the names and the lengths of the
      axes;
    - a dataset is the dict of its variables, coordinates included, and
      the set of the names that are coordinates. *)

Inductive dtype : Type := float64 | float32 | int64 | datetime64.

Abbreviation cell := (option Q).

#[local] Unset Elimination Schemes.
Inductive nd : Type :=
  | Cell (v : cell)
  | Axis (items : list nd).
#[local] Set Elimination Schemes.

Record DataArray : Type := {
  dims : list string;
  shape : list nat;
  dtype_of : dtype;
  data : nd;
}.

Record Dataset : Type := {
  variables : gmap string DataArray;
  coord_names : gset string;
}.

Definition children (a : nd) : list nd :=
  match a with
  | Axis l => l
  | Cell _ => []
  end.

Definition cell_of (a : nd) : cell :=
  match a with
  | Cell v => v
  | Axis _ => None
  end.

(** [a[i0, i1, ...]] for a full index: the cell, when the index is within
    the array. *)
Fixpoint nd_at (idx : list nat) (a : nd) : option cell :=
  match idx with
  | [] => match a with Cell v => Some v | Axis _ => None end
  | i :: idx' => children a !! i ≫= nd_at idx'
  end.

(** The cells in row-major order, given the number of axes. *)
Fixpoint cells_of (rank : nat) (a : nd) : list cell :=
  match rank with
  | O => [cell_of a]
  | S r => children a ≫= cells_of r
  end.

(** The nested lists agree with a shape. *)
Fixpoint wf_nd (shape : list nat) (a : nd) : Prop :=
  match shape with
  | [] => ∃ v, a = Cell v
  | n :: shape' =>
      ∃ l, a = Axis l ∧ length l = n ∧ Forall (wf_nd shape') l
  end.

Definition wf_array (a : DataArray) : Prop :=
  length (dims a) = length (shape a) ∧ wf_nd (shape a) (data a).

(** [ds.sizes] has the key [d]: some variable has an axis of that name. *)
Definition has_dim (ds : Dataset) (d : string) : Prop :=
  map_Exists (λ _ a, d ∈ dims a) (variables ds).

(** [ds[name]]. *)
Definition getitem (ds : Dataset) (name : string) : result DataArray :=
  match variables ds !! name with
  | Some a => Ok a
  | None => Raise (KeyError name)
  end.

(** [ds[name] = a] for a name the dataset has: the variable is replaced
    and stays a coordinate if it was one. *)
Definition setitem (ds : Dataset) (name : string) (a : DataArray) : Dataset :=
  {| variables := <[name := a]> (variables ds);
     coord_names := coord_names ds |}.

(** [ds.name.values] of a one-dimensional variable. *)
Definition attr_values (ds : Dataset) (name : string) : result (list cell) :=
  match variables ds !! name with
  | Some a => Ok (cell_of <$> children (data a))
  | None => Raise (AttributeError name)
  end.

(** *** Lines 41-43: the latest time step *)

(** [values[-1]]. *)
Definition item_last {A : Type} (l : list A) : result A :=
  match last l with
  | Some x => Ok x
  | None => Raise IndexError
  end.

(** Labels are compared as numbers. *)
Definition canon (c : cell) : cell := Qred <$> c.

#[global] Instance Q_eq_dec : EqDecision Q.
Proof. solve_decision. Defined.

(** Positional selection of the single index [i] along the axis [d]:
    [a.isel({d: [i]})]. *)
Fixpoint take_along (d : string) (i : nat) (ds : list string) (a : nd) : nd :=
  match ds with
  | [] => a
  | d' :: rest =>
      if decide (d' = d) then Axis (option_list (children a !! i))
      else Axis (take_along d i rest <$> children a)
  end.

Definition isel (d : string) (i : nat) (a : DataArray) : DataArray :=
  if decide (d ∈ dims a) then
    {| dims := dims a;
       shape := zip_with (λ d' n, if decide (d' = d) then 1%nat else n)
                  (dims a) (shape a);
       dtype_of := dtype_of a;
       data := take_along d i (dims a) (data a) |}
  else a.

(** [ds.sel(time=[label])]: the label is looked up in the index of the
    time axis, which must hold no value twice; every variable with a time
    axis is restricted to the position found. *)
Definition sel_time (ds : Dataset) (label : cell) : result Dataset :=
  index ← attr_values ds "time";
  if decide (NoDup (canon <$> index)) then
    match list_find (λ c, canon c = canon label) index with
    | Some (i, _) =>
        Ok {| variables := isel "time" i <$> variables ds;
              coord_names := coord_names ds |}
    | None => Raise (KeyError "time")
    end
  else Raise InvalidIndexError.

Definition select_latest (ds : Dataset) : result Dataset :=
  times ← attr_values ds "time";
  latest_time ← item_last times;
  sel_time ds latest_time.

(** *** Lines 45-49 and 60: what the progress messages read

    The messages themselves are left out; evaluating their arguments can
    raise. [min()] and [max()] of an axis without values raise
    [ValueError]. *)
Definition summary (ds : Dataset) : result unit :=
  _ ← attr_values ds "depth";
  lat ← attr_values ds "latitude";
  _ ← (if decide (lat = []) then Raise ValueError else Ok ());
  lon ← attr_values ds "longitude";
  _ ← (if decide (lon = []) then Raise ValueError else Ok ());
  _ ← (if decide (has_dim ds "latitude") then Ok ()
       else Raise (KeyError "latitude"));
  if decide (has_dim ds "longitude") then Ok ()
  else Raise (KeyError "longitude").

Definition grid_size (ds : Dataset) : result unit :=
  _ ← (if decide (has_dim ds "latitude") then Ok ()
       else Raise (KeyError "latitude"));
  if decide (has_dim ds "longitude") then Ok ()
  else Raise (KeyError "longitude").

(** *** Lines 53-58: coarsening by block means *)

Definition coarsen_factor : nat := 3.

(** The keyword arguments [latitude=k, longitude=k] of [ds.coarsen]. *)
Definition spatial_windows (k : nat) : gmap string nat :=
  {[ "latitude" := k; "longitude" := k ]}.

Definition coarsen_shape (windows : gmap string nat) (ds : list string)
    (sh : list nat) : list nat :=
  zip_with (λ d n, match windows !! d with
                   | Some w => (n / w)%nat
                   | None => n
                   end) ds sh.

(** The mean of integers is a [float64]; other types are kept. *)
Definition mean_dtype (t : dtype) : dtype :=
  match t with
  | int64 => float64
  | _ => t
  end.

(** The value of a call that has returned. *)
Definition ok_value {A : Type} (r : result A) : option A :=
  match r with
  | Ok a => Some a
  | Raise _ => None
  end.

Section Coarsen.

(** The reduction [.mean()] applies to the cells gathered for one output
    cell: their mean as the array library computes it in binary floating
    point, the missing cells skipped. Its value is not computed here. *)
Variable block_mean : list cell -> cell.

(** The block mean over the axes named in [windows], for the arrays
    [members] that fall into one block along the axes already passed:
    - a windowed axis of length [n] and window [w] becomes an axis of
      length [n / w]; the position [i] gathers the sub-arrays
      [i*w .. i*w + w - 1] of every member, and the sub-arrays from
      [(n / w) * w] on are dropped ([boundary="trim"]);
    - another axis keeps its length, the position [i] gathering the
      sub-array [i] of every member;
    - past the last axis the gathered cells are reduced to their mean. *)
Fixpoint coarsen_nd (windows : gmap string nat) (ds : list string)
    (sh : list nat) (members : list nd) : nd :=
  match ds, sh with
  | d :: ds', n :: sh' =>
      match windows !! d with
      | Some w =>
          Axis ((λ i, coarsen_nd windows ds' sh'
                        (members ≫= λ m, take w (drop (i * w) (children m))))
                <$> seq 0 (n / w))
      | None =>
          Axis ((λ i, coarsen_nd windows ds' sh'
                        (members ≫= λ m, option_list (children m !! i)))
                <$> seq 0 n)
      end
  | _, _ => Cell (block_mean (cell_of <$> members))
  end.

(** The reshaping and the reduction of [Variable.coarsen], once the
    windows have been checked: an array without a windowed axis is
    returned as it is. *)
Definition coarsen_reduce (windows : gmap string nat) (a : DataArray)
    : DataArray :=
  if decide (Exists (λ d, is_Some (windows !! d)) (dims a)) then
    {| dims := dims a;
       shape := coarsen_shape windows (dims a) (shape a);
       dtype_of := mean_dtype (dtype_of a);
       data := coarsen_nd windows (dims a) (shape a) [data a] |}
  else a.

(** [Variable.coarsen(windows, "mean", boundary="trim")]: only the windows
    of the array's own axes count, and a window that is not positive
    raises [ValueError]. *)
Definition coarsen_array (windows : gmap string nat) (a : DataArray)
    : result DataArray :=
  if decide (Exists (λ d, windows !! d = Some 0%nat) (dims a)) then
    Raise ValueError
  else Ok (coarsen_reduce windows a).

(** [ds.coarsen(latitude=w, longitude=w, boundary="trim").mean()], with
    the windows as a dict from axis name to window size: every window must
    name an axis of the dataset; the data variables and the coordinates
    are all coarsened, and the call raises when one of them does. *)
Definition coarsen_mean (windows : gmap string nat) (ds : Dataset)
    : result Dataset :=
  if decide (map_Forall (λ d _, has_dim ds d) windows) then
    let coarsened := coarsen_array windows <$> variables ds in
    if decide (map_Forall (λ _ r, is_Some (ok_value r)) coarsened) then
      Ok {| variables := omap ok_value coarsened;
            coord_names := coord_names ds |}
    else Raise ValueError
  else Raise ValueError.

End Coarsen.

(** *** Lines 62-69: the cast to float32 *)

Fixpoint map_cells (f : Q -> Q) (a : nd) : nd :=
  match a with
  | Cell v => Cell (f <$> v)
  | Axis l => Axis (List.map (map_cells f) l)
  end.

Section Downcast.

(** The nearest [float32] value of a number. *)
Variable to_float32 : Q -> Q.

(** [a.astype(np.float32)]. *)
Definition astype_float32 (a : DataArray) : DataArray :=
  {| dims := dims a; shape := shape a; dtype_of := float32;
     data := map_cells to_float32 (data a) |}.

(** [ds[name] = ds[name].astype(np.float32)]. *)
Definition cast_item (ds : Dataset) (name : string) : result Dataset :=
  a ← getitem ds name;
  Ok (setitem ds name (astype_float32 a)).

Fixpoint cast_items (ds : Dataset) (names : list string) : result Dataset :=
  match names with
  | [] => Ok ds
  | name :: rest => ds' ← cast_item ds name; cast_items ds' rest
  end.

Definition downcast (ds : Dataset) : result Dataset :=
  ds ← cast_items ds VARIABLES;
  ds ← cast_item ds "latitude";
  ds ← cast_item ds "longitude";
  cast_item ds "depth".

End Downcast.

(** *** Lines 78-85: re-chunking and materialization *)

Definition chunk_sizes : gmap string nat :=
  {[ "time" := 1%nat; "depth" := 1%nat;
     "latitude" := 170%nat; "longitude" := 240%nat ]}.

(** The block shape [ds.chunk] gives an array: the requested size, or the
    length of the axis when that is smaller or nothing is requested. *)
Definition block_shape (chunks : gmap string nat) (a : DataArray) : list nat :=
  zip_with (λ d n, match chunks !! d with
                   | Some c => Nat.min c n
                   | None => n
                   end) (dims a) (shape a).

(** [ds.chunk(chunks)]: the dataset with the block shape of each of its
    arrays; every key of [chunks] must be an axis of the dataset. *)
Definition chunk (chunks : gmap string nat) (ds : Dataset)
    : result (Dataset * gmap string (list nat)) :=
  if decide (map_Forall (λ d _, has_dim ds d) chunks) then
    Ok (ds, block_shape chunks <$> variables ds)
  else Raise ValueError.

(** [.compute()]: the values in memory; the block shapes are gone. *)
Definition compute (chunked : Dataset * gmap string (list nat)) : Dataset :=
  chunked.1.

(** *** Lines 87-101: the encoding *)

Inductive Compressor : Type := Zlib (level : nat).

(** The dict [enc]: the key ["chunks"] is set for the data variables
    only. *)
Record Encoding : Type := {
  enc_compressor : Compressor;
  enc_chunks : option (list nat);
}.

(** [tuple(chunk_sizes.get(d, s) for d, s in zip(dims, shape))]. *)
Definition encoded_chunks (a : DataArray) : list nat :=
  zip_with (λ d s, default s (chunk_sizes !! d)) (dims a) (shape a).

Fixpoint build_encoding (ds : Dataset) (encoding : gmap string Encoding)
    (names : list string) : gmap string Encoding :=
  match names with
  | [] => encoding
  | name :: rest =>
      match variables ds !! name with
      | None => build_encoding ds encoding rest
      | Some a =>
          let enc :=
            {| enc_compressor := Zlib 5;
               enc_chunks := if decide (name ∈ VARIABLES)
                             then Some (encoded_chunks a) else None |} in
          build_encoding ds (<[name := enc]> encoding) rest
      end
  end.

Definition encoded_names : list string :=
  VARIABLES ++ ["time"; "depth"; "latitude"; "longitude"].

(** *** Lines 103-120: writing and verification *)

(** A regular file below the output directory. *)
Record File : Type := { path : string; st_size : Z }.

(** The messages of the verification step. *)
Inductive message : Type :=
  | StoreWritten
  | TotalSize (bytes : Z)
  | StoreVariables (names : list string)
  | Done.

Definition total_bytes (files : list File) : Z :=
  foldr Z.add 0 (st_size <$> files).

Section Main.

(** The array-access provider, [copernicusmarine.open_dataset]. *)
Variable open_dataset :
  string -> list string -> Q -> Q -> result Dataset.

(** The mean the array library computes over the cells of a block. *)
Variable block_mean : list cell -> cell.

Variable to_float32 : Q -> Q.

(** The store writer: [ds.to_zarr(OUTPUT_DIR, mode="w", consolidated=True,
    encoding=encoding)] into the directory that lines 72-76 have emptied;
    it returns the regular files then found below the directory. *)
Variable to_zarr : Dataset -> gmap string Encoding -> result (list File).

(** The store reader: the names [zarr.open(OUTPUT_DIR, mode="r")] lists
    at the top level of the store made of these files. *)
Variable zarr_open : list File -> result (list string).

(** Lines 110-120: the messages of a verification step that reaches the
    last line. When reading the store raises, the exception is the
    outcome; what the script had printed by then is left out. *)
Definition verify (files : list File) : result (list message) :=
  store_keys ← zarr_open files;
  Ok [StoreWritten; TotalSize (total_bytes files);
      StoreVariables store_keys; Done].

(** Lines 34-85: the dataset that is written. *)
Definition prepare : result Dataset :=
  ds ← open_dataset DATASET_ID VARIABLES 0%Q (1 # 2)%Q;
  ds ← select_latest ds;
  _ ← summary ds;
  ds ← coarsen_mean block_mean (spatial_windows coarsen_factor) ds;
  _ ← grid_size ds;
  ds ← downcast to_float32 ds;
  chunked ← chunk chunk_sizes ds;
  Ok (compute chunked).

(** The outcome of a run: the exception that ends it, or the messages of
    the verification step. The progress messages of lines 32-60 are left
    out; [summary] and [grid_size] stand for the reads they make. *)
Definition main : result (list message) :=
  ds ← prepare;
  let encoding := build_encoding ds ∅ encoded_names in
  files ← to_zarr ds encoding;
  verify files.

End Main.

(** *** Vocabulary of the properties *)

(** The index positions within a shape. *)
Definition in_bounds (idx sh : list nat) : Prop := Forall2 lt idx sh.

(** The input positions that fall into the block of the output position
    [idx]: along a windowed axis the [w] positions from [i * w], along
    another axis the position itself; in row-major order. *)
Fixpoint block (windows : gmap string nat) (ds : list string)
    (idx : list nat) : list (list nat) :=
  match ds, idx with
  | d :: ds', i :: idx' =>
      match windows !! d with
      | Some w => seq (i * w) w ≫= λ j, (cons j) <$> block windows ds' idx'
      | None => (cons i) <$> block windows ds' idx'
      end
  | _, _ => [[]]
  end.

(** The cell at an index, missing outside the array. *)
Definition cell_at (a : nd) (idx : list nat) : cell :=
  default None (nd_at idx a).

(** The number of input cells in a block. *)
Fixpoint block_size (windows : gmap string nat) (ds : list string) : nat :=
  match ds with
  | [] => 1
  | d :: ds' => default 1%nat (windows !! d) * block_size windows ds'
  end.


(** The variable [name] is the coordinate of the axis of its name, with
    the values [vs]. *)
Definition axis_coordinate (ds : Dataset) (name : string) (vs : list cell)
    : Prop :=
  ∃ a, variables ds !! name = Some a ∧ dims a = [name] ∧
       data a = Axis (Cell <$> vs).

(** The names [downcast] casts. *)
Definition downcast_names : list string :=
  VARIABLES ++ ["latitude"; "longitude"; "depth"].


(** The names the written store is expected to hold. *)
Definition expected_names : gset string :=
  list_to_set encoded_names.

(** What the array-access provider returns for the request of [main]: the
    requested variables and the coordinates of the four named axes, and
    nothing else; a time axis that is not empty and holds no value twice;
    latitude and longitude axes that are not empty. *)
Record provider_contract (ds : Dataset) : Prop := {
  pc_names : dom (variables ds) = expected_names;
  pc_coords : coord_names ds = {[ "time"; "depth"; "latitude"; "longitude" ]};
  pc_time : ∃ ts, axis_coordinate ds "time" ts ∧ ts ≠ [] ∧
                  NoDup (canon <$> ts);
  pc_depth : ∃ vs, axis_coordinate ds "depth" vs;
  pc_latitude : ∃ vs, axis_coordinate ds "latitude" vs ∧ vs ≠ [];
  pc_longitude : ∃ vs, axis_coordinate ds "longitude" vs ∧ vs ≠ [];
}.


(** The chunk tuple as the specification words it: the configured size,
    clipped to the extent of the axis. *)
Definition clipped_chunks (a : DataArray) : list nat :=
  zip_with (λ d s, match chunk_sizes !! d with
                   | Some c => Nat.min c s
                   | None => s
                   end) (dims a) (shape a).

(** The time selection as the specification words it: one sample, the
    maximum of the time values. *)
Definition selects_maximum (before after : list cell) : Prop :=
  ∃ m, after = [Some m] ∧ Some m ∈ before ∧
       ∀ t, Some t ∈ before → (t <= m)%Q.

(** *** Sample data *)

Definition vector (name : string) (t : dtype) (vs : list Q) : DataArray :=
  {| dims := [name]; shape := [length vs]; dtype_of := t;
     data := Axis ((λ v, Cell (Some v)) <$> vs) |}.

Definition matrix (rows : list (list Q)) : nd :=
  Axis ((λ r, Axis ((λ v, Cell (Some v)) <$> r)) <$> rows).

(** A field over time, depth, latitude and longitude, given as one
    latitude-longitude matrix per time step, at a single depth. *)
Definition field (t : dtype) (nlat nlon : nat) (steps : list (list (list Q)))
    : DataArray :=
  {| dims := ["time"; "depth"; "latitude"; "longitude"];
     shape := [length steps; 1%nat; nlat; nlon];
     dtype_of := t;
     data := Axis ((λ m, Axis [matrix m]) <$> steps) |}.

(** One row of three cells over latitude and longitude. *)
Definition row_1x3 : DataArray :=
  {| dims := ["latitude"; "longitude"]; shape := [1%nat; 3%nat];
     dtype_of := float64; data := matrix [[1; 2; 3]]%Q |}.

(** The same row over depth and longitude. *)
Definition depth_row_1x3 : DataArray :=
  {| dims := ["depth"; "longitude"]; shape := [1%nat; 3%nat];
     dtype_of := float64; data := matrix [[1; 2; 3]]%Q |}.

Definition grid_3x7 : list (list Q) :=
  [ [1; 2; 3; 4; 5; 6; 100];
    [1; 2; 3; 4; 5; 6; 100];
    [1; 2; 3; 4; 5; 15; 100] ]%Q.

Definition grid_3x7' : list (list Q) :=
  [ [0; 0; 0; 9; 9; 9; 7];
    [0; 0; 0; 9; 9; 9; 7];
    [0; 0; 9; 9; 9; 9; 7] ]%Q.

(** A dataset of two time steps on a grid of 3 by 7 cells. *)
Definition sample_dataset (times : list Q) : Dataset :=
  {| variables :=
       {[ "uo" := field float64 3 7 [grid_3x7'; grid_3x7];
          "vo" := field float32 3 7 [grid_3x7; grid_3x7'];
          "time" := vector "time" datetime64 times;
          "depth" := vector "depth" float64 [(1 # 2)%Q];
          "latitude" := vector "latitude" float64 [10; 11; 12]%Q;
          "longitude" := vector "longitude" float64 [0; 1; 2; 3; 4; 5; 6]%Q ]};
     coord_names := {[ "time"; "depth"; "latitude"; "longitude" ]} |}.

Definition sample_open_dataset (times : list Q)
    (id : string) (vars : list string) (lo hi : Q) : result Dataset :=
  if decide (id = DATASET_ID) then Ok (sample_dataset times)
  else Raise (ProviderError "unknown dataset").

(** A dataset whose only data variable is a row of three cells; over
    latitude and longitude, and over depth and longitude. *)
Definition row_dataset : Dataset :=
  {| variables :=
       {[ "uo" := row_1x3;
          "latitude" := vector "latitude" float64 [10]%Q;
          "longitude" := vector "longitude" float64 [0; 1; 2]%Q ]};
     coord_names := {[ "latitude"; "longitude" ]} |}.

Definition depth_row_dataset : Dataset :=
  {| variables :=
       {[ "uo" := depth_row_1x3;
          "depth" := vector "depth" float64 [(1 # 2)%Q];
          "latitude" := vector "latitude" float64 [10; 11; 12]%Q;
          "longitude" := vector "longitude" float64 [0; 1; 2]%Q ]};
     coord_names := {[ "depth"; "latitude"; "longitude" ]} |}.


(** A stand-in for the cast: rounding down to a multiple of 1/4. *)
Definition quarter_floor (q : Q) : Q :=
  Qred (inject_Z (Qfloor (q * 4)) / 4).

Definition Qsum (l : list Q) : Q := foldr Qplus 0%Q l.

(** A stand-in for the mean of a block: the mean of the cells that are not
    missing, without rounding and in lowest terms; missing when there is
    none. *)
Definition exact_mean (cs : list cell) : cell :=
  match omap id cs with
  | [] => None
  | vs => Some (Qred (Qsum vs / inject_Z (Z.of_nat (length vs))))
  end.

(** The sample dataset with one more coordinate, the area of the grid
    cells over latitude and longitude. *)
Definition sample_with_area (times : list Q) : Dataset :=
  {| variables :=
       <["cell_area" := {| dims := ["latitude"; "longitude"];
                           shape := [3%nat; 7%nat];
                           dtype_of := float64;
                           data := matrix grid_3x7 |}]>
         (variables (sample_dataset times));
     coord_names := {[ "cell_area" ]} ∪ coord_names (sample_dataset times) |}.

Definition area_open_dataset (times : list Q)
    (id : string) (vars : list string) (lo hi : Q) : result Dataset :=
  if decide (id = DATASET_ID) then Ok (sample_with_area times)
  else Raise (ProviderError "unknown dataset").

(** A store writer that writes one file of 100 bytes per array and the
    consolidated metadata, and one that loses every array but [uo]. *)
Definition sample_to_zarr (ds : Dataset) (encoding : gmap string Encoding)
    : result (list File) :=
  Ok ({| path := ".zmetadata"; st_size := 2048 |} ::
      ((λ name, {| path := name +:+ "/0.0.0.0"; st_size := 100 |})
         <$> (map_to_list (variables ds)).*1)).

Definition lossy_to_zarr (ds : Dataset) (encoding : gmap string Encoding)
    : result (list File) :=
  Ok [ {| path := ".zmetadata"; st_size := 2048 |};
       {| path := "uo/0.0.0.0"; st_size := 100 |} ].

(** A store reader: the directories of the chunk files. *)
Definition sample_zarr_open (files : list File) : result (list string) :=
  Ok (omap (λ f, if decide (path f = ".zmetadata") then None
                 else Some (String.substring 0 (String.length (path f) - 8) (path f)))
        files).


(** The sample dataset without the variable [vo]. *)
Definition sample_without_vo : Dataset :=
  {| variables := delete "vo" (variables (sample_dataset [5; 7]%Q));
     coord_names := coord_names (sample_dataset [5; 7]%Q) |}.

End subset_zarr.

(** * Properties of build_catalog.py *)

Section CatalogProperties.

Import build_catalog.

Variable describe : string -> result Catalogue.

Lemma bind_Ok {A B : Type} (r : result A) (k : A -> result B) (a : A) :
  r = Ok a -> (r ≫= k) = k a.
Proof. intros ->. reflexivity. Qed.

Lemma bind_Raise {A B : Type} (r : result A) (k : A -> result B) (e : exn) :
  r = Raise e -> (r ≫= k) = Raise e.
Proof. intros ->. reflexivity. Qed.

(** The tail of [build_entry] once the delivery part is reached. *)
Lemma build_entry_at_part (t : Target) cat prod part :
  describe (dataset_id t) = Ok cat ->
  delivery_part cat = Some (prod, part) ->
  build_entry describe t =
    match find_service (preferred_service t) (services part) with
    | None => Ok None
    | Some svc =>
        if decide (service_format svc = Some "zarr") then
          ref_var ← item0 (variables svc);
          dimensions ← build_dimensions ∅ (coordinates ref_var);
          Ok (Some {| e_id := dataset_id t;
                      e_product := product_id prod;
                      e_label := label t;
                      e_zarr_url := uri svc;
                      e_variables :=
                        build_variables (target_variables t) ∅ (variables svc);
                      e_dimensions := dimensions |})
        else Ok None
    end.
Proof.
  intros Hd Hp. unfold build_entry. rewrite (bind_Ok _ _ _ Hd).
  unfold delivery_part in Hp.
  destruct (products cat) as [|p ps]; [discriminate|]. simpl in Hp |- *.
  destruct (datasets p) as [|ds dss]; [discriminate|]. simpl in Hp |- *.
  destruct (versions ds) as [|v vs]; [discriminate|]. simpl in Hp |- *.
  destruct (parts v) as [|pt pts]; [discriminate|]. simpl in Hp |- *.
  injection Hp as <- <-. reflexivity.
Qed.

(** *** One dimension descriptor *)

Lemma lookup_set_if_some_ne {A : Type} (k k' : string) (f : A -> pyval)
    (x : option A) (d : gmap string pyval) :
  k ≠ k' -> set_if_some k f x d !! k' = d !! k'.
Proof.
  intros Hne. destruct x as [a|]; simpl; [|reflexivity].
  by rewrite lookup_insert_ne.
Qed.

Lemma lookup_set_if_some_eq {A : Type} (k : string) (f : A -> pyval)
    (x : option A) (d : gmap string pyval) :
  d !! k = None -> set_if_some k f x d !! k = f <$> x.
Proof.
  intros Hk. destruct x as [a|]; simpl; [|exact Hk].
  by rewrite lookup_insert_eq.
Qed.

(** [build_dim] raises exactly on the coordinates that are not [range_ok]. *)
Lemma build_dim_returns (c : Coordinate) :
  range_ok c = true <-> exists d, build_dim c = Ok d.
Proof.
  unfold range_ok, build_dim, range_size, opt_sub.
  destruct (values c) as [vs|]; simpl.
  { split; eauto. }
  destruct (step c) as [st|]; simpl.
  2:{ split; eauto. }
  destruct (float_bool st) eqn:Hb; simpl.
  2:{ split; eauto. }
  destruct (minimum_value c) as [lo|], (maximum_value c) as [hi|]; simpl;
    try (split; [discriminate | intros [d Hd]; discriminate]).
  unfold float_div. destruct st as [s| | |s m e]; try discriminate; simpl;
    destruct (SFdiv prec emax (float_sub hi lo) _) as [s'|s'| |s' m' e'];
    simpl; split; eauto; try discriminate;
    intros [d Hd]; discriminate.
Qed.

(** On a float whose sign bit is clear, [int] and [floor] agree. *)
Lemma float_int_floor_nonneg (q : float) (n : Z) :
  float_nonneg q = true -> float_int q = Ok n -> float_floor q = Ok n.
Proof.
  destruct q as [s|s| |s m e]; simpl; try discriminate; try done.
  destruct s; [discriminate|]. done.
Qed.

(** In general [int] is the floor or one more. *)
Lemma float_int_floor_bounds (q : float) (n f : Z) :
  float_int q = Ok n -> float_floor q = Ok f -> f <= n <= f + 1.
Proof.
  destruct q as [s|s| |s m e]; simpl; try discriminate.
  { intros [= <-] [= <-]. lia. }
  intros [= <-] [= <-]. destruct s; simpl; [|lia].
  destruct (Z_lt_le_dec e 0) as [He|He].
  - rewrite <- (Z.opp_involutive e), !Z.shiftl_opp_r.
    rewrite !Z.shiftr_div_pow2 by lia.
    assert (Hp : 0 < 2 ^ (- e)) by (apply Z.pow_pos_nonneg; lia).
    change (Z.neg m) with (- Z.pos m).
    pose proof (Z.div_mod (Z.pos m) (2 ^ (- e)) ltac:(lia)) as H1.
    pose proof (Z.mod_pos_bound (Z.pos m) (2 ^ (- e)) Hp) as H2.
    pose proof (Z.div_mod (- Z.pos m) (2 ^ (- e)) ltac:(lia)) as H3.
    pose proof (Z.mod_pos_bound (- Z.pos m) (2 ^ (- e)) Hp) as H4.
    nia.
  - rewrite !Z.shiftl_mul_pow2 by lia. change (Z.neg m) with (- Z.pos m). lia.
Qed.

(** The descriptor of a coordinate with explicit values. *)
Lemma build_dim_explicit (c : Coordinate) vs dim :
  values c = Some vs -> build_dim c = Ok dim ->
  dim !! "values" = Some (PyList vs) ∧
  dim !! "size" = Some (PyInt (Z.of_nat (length vs))) ∧
  dim !! "min" = None ∧ dim !! "max" = None ∧ dim !! "step" = None.
Proof.
  unfold build_dim. intros -> [= <-].
  rewrite !lookup_set_if_some_ne by done.
  repeat split; by simplify_map_eq.
Qed.

(** The descriptor of a coordinate without explicit values. *)
Lemma build_dim_range (c : Coordinate) dim :
  values c = None -> build_dim c = Ok dim ->
  exists sz, range_size c = Ok sz ∧
    dim !! "size" = Some sz ∧
    dim !! "values" = None ∧
    dim !! "min" = PyFloat <$> minimum_value c ∧
    dim !! "max" = PyFloat <$> maximum_value c ∧
    dim !! "step" = PyFloat <$> step c.
Proof.
  unfold build_dim. intros ->.
  destruct (range_size c) as [sz|e]; [|discriminate]. intros [= <-].
  exists sz. split; [done|].
  repeat split.
  - rewrite !lookup_set_if_some_ne by done. by simplify_map_eq.
  - rewrite !lookup_set_if_some_ne by done. by simplify_map_eq.
  - rewrite !(lookup_set_if_some_ne "units"), !(lookup_set_if_some_ne "chunk_size"),
      !(lookup_set_if_some_ne "step"), !(lookup_set_if_some_ne "max") by done.
    apply lookup_set_if_some_eq. by simplify_map_eq.
  - rewrite !(lookup_set_if_some_ne "units"), !(lookup_set_if_some_ne "chunk_size"),
      !(lookup_set_if_some_ne "step") by done.
    apply lookup_set_if_some_eq.
    rewrite !lookup_set_if_some_ne by done. by simplify_map_eq.
  - rewrite !(lookup_set_if_some_ne "units"), !(lookup_set_if_some_ne "chunk_size") by done.
    apply lookup_set_if_some_eq.
    rewrite !lookup_set_if_some_ne by done. by simplify_map_eq.
Qed.

(** What [range_size] returns, case by case. *)
Lemma range_size_cases (c : Coordinate) sz :
  range_size c = Ok sz ->
  match step c with
  | Some st =>
      if float_bool st then
        exists lo hi n,
          minimum_value c = Some lo ∧ maximum_value c = Some hi ∧
          float_int (SFdiv prec emax (float_sub hi lo) st) = Ok n ∧
          sz = PyInt (n + 1)
      else sz = PyNone
  | None => sz = PyNone
  end.
Proof.
  unfold range_size, opt_sub. destruct (step c) as [st|]; [|by intros [= <-]].
  destruct (float_bool st) eqn:Hb; [|by intros [= <-]].
  destruct (maximum_value c) as [hi|], (minimum_value c) as [lo|];
    try discriminate. simpl.
  unfold float_div. destruct st as [s|s| |s m e]; try discriminate; simpl;
    destruct (float_int _) as [n|] eqn:Hn; try discriminate;
    intros [= <-]; eauto 10.
Qed.


(** *** The loop over the coordinates *)

Lemma build_dimensions_returns (cs : list Coordinate) :
  Forall (λ c, range_ok c = true) cs ->
  ∀ acc, exists dims, build_dimensions acc cs = Ok dims.
Proof.
  induction 1 as [|c cs Hc _ IH]; intros acc; simpl; [eauto|].
  apply build_dim_returns in Hc as [d Hd]. rewrite (bind_Ok _ _ _ Hd).
  apply IH.
Qed.

Lemma build_dimensions_other (cs : list Coordinate) :
  ∀ acc dims k,
    build_dimensions acc cs = Ok dims ->
    (∀ c, c ∈ cs -> coordinate_id c ≠ k) ->
    dims !! k = acc !! k.
Proof.
  induction cs as [|c cs IH]; intros acc dims k; simpl.
  { by intros [= ->] _. }
  destruct (build_dim c) as [d|e] eqn:Hd; [|discriminate].
  change (Ok d ≫= _) with (build_dimensions (<[coordinate_id c := d]> acc) cs).
  intros Hb Hk. rewrite (IH _ _ _ Hb).
  - apply lookup_insert_ne, Hk. left.
  - intros c' Hc'. apply Hk. by right.
Qed.

(** Each coordinate that is the last with its identifier is emitted under
    that identifier, with the descriptor [build_dim] computes for it. *)
Lemma build_dimensions_lookup (cs : list Coordinate) :
  ∀ acc dims i c,
    build_dimensions acc cs = Ok dims ->
    last_with_id cs i c ->
    exists dim, build_dim c = Ok dim ∧ dims !! coordinate_id c = Some dim.
Proof.
  induction cs as [|c0 cs IH]; intros acc dims i c; simpl.
  { intros _ [Hi _]. by rewrite lookup_nil in Hi. }
  destruct (build_dim c0) as [d|e] eqn:Hd; [|discriminate].
  change (Ok d ≫= _) with (build_dimensions (<[coordinate_id c0 := d]> acc) cs).
  intros Hb [Hi Hlast]. destruct i as [|i]; simpl in Hi.
  - injection Hi as ->. exists d. split; [done|].
    rewrite (build_dimensions_other _ _ _ _ Hb).
    + apply lookup_insert_eq.
    + intros c' Hc'. apply list_elem_of_lookup in Hc' as [j Hj].
      apply (Hlast (S j)); [lia | exact Hj].
  - apply (IH _ _ i c Hb). split; [done|].
    intros j c' Hij Hj. apply (Hlast (S j)); [lia | exact Hj].
Qed.

(** Every emitted descriptor was computed from a coordinate with its key. *)
Lemma build_dimensions_origin (cs : list Coordinate) :
  ∀ acc dims k dim,
    build_dimensions acc cs = Ok dims ->
    dims !! k = Some dim ->
    acc !! k = Some dim ∨
    exists c, c ∈ cs ∧ coordinate_id c = k ∧ build_dim c = Ok dim.
Proof.
  induction cs as [|c0 cs IH]; intros acc dims k dim; simpl.
  { intros [= ->] Hk. by left. }
  destruct (build_dim c0) as [d|e] eqn:Hd; [|discriminate].
  change (Ok d ≫= _) with (build_dimensions (<[coordinate_id c0 := d]> acc) cs).
  intros Hb Hk. destruct (IH _ _ _ _ Hb Hk) as [Hacc|(c & Hc & Hid & Hbd)].
  - destruct (decide (coordinate_id c0 = k)) as [Heq|Hne].
    + subst k. rewrite lookup_insert_eq in Hacc. injection Hacc as ->.
      right. exists c0. split; [left|done].
    + rewrite lookup_insert_ne in Hacc by done. by left.
  - right. exists c. split; [by right|done].
Qed.

(** The entry of a target whose preferred service is found in the zarr
    format and reports a first variable with computable coordinates. *)
Lemma build_entry_dimensions (t : Target) cat prod part svc ref_var vars :
  describe (dataset_id t) = Ok cat ->
  delivery_part cat = Some (prod, part) ->
  find_service (preferred_service t) (services part) = Some svc ->
  service_format svc = Some "zarr" ->
  variables svc = ref_var :: vars ->
  Forall (λ c, range_ok c = true) (coordinates ref_var) ->
  exists e,
    build_entry describe t = Ok (Some e) ∧
    e_id e = dataset_id t ∧ e_zarr_url e = uri svc ∧
    (∀ i c, last_with_id (coordinates ref_var) i c ->
       exists dim, build_dim c = Ok dim ∧
                   e_dimensions e !! coordinate_id c = Some dim) ∧
    (∀ k dim, e_dimensions e !! k = Some dim ->
       exists c, c ∈ coordinates ref_var ∧ coordinate_id c = k ∧
                 build_dim c = Ok dim).
Proof.
  intros Hd Hp Hs Hf Hv Hok.
  rewrite (build_entry_at_part _ _ _ _ Hd Hp), Hs.
  rewrite decide_True by done. rewrite Hv. simpl.
  destruct (build_dimensions_returns _ Hok ∅) as [dims Hdims].
  rewrite (bind_Ok _ _ _ Hdims). eexists. split; [reflexivity|].
  simpl. do 2 (split; [done|]). split.
  - intros i c Hl. exact (build_dimensions_lookup _ _ _ _ _ Hdims Hl).
  - intros k dim Hk.
    destruct (build_dimensions_origin _ _ _ _ _ Hdims Hk) as [Hacc|Hc];
      [by rewrite lookup_empty in Hacc | exact Hc].
Qed.

(** *** The loop over the targets *)

Lemma collect_entries_all (targets : list Target) :
  ∀ rs acc,
    Forall2 (λ t r, build_entry describe t = Ok r) targets rs ->
    collect_entries describe acc targets = Ok (acc ++ omap id rs).
Proof.
  induction targets as [|t ts IH]; intros rs acc Hall.
  { apply Forall2_nil_inv_l in Hall as ->. simpl. by rewrite app_nil_r. }
  apply Forall2_cons_inv_l in Hall as (r & rs' & Hr & Hrs & ->).
  simpl. rewrite (bind_Ok _ _ _ Hr), (IH _ _ Hrs).
  destruct r as [e|]; simpl; [|done]. by rewrite <- app_assoc.
Qed.

Lemma collect_entries_skip (before : list Target) t after :
  build_entry describe t = Ok None ->
  ∀ acc, collect_entries describe acc (before ++ t :: after) =
         collect_entries describe acc (before ++ after).
Proof.
  intros Ht. induction before as [|b bs IH]; intros acc; simpl.
  { by rewrite (bind_Ok _ _ _ Ht). }
  destruct (build_entry describe b) as [r|e]; [|done]. apply IH.
Qed.

Lemma collect_entries_raise (before : list Target) t after e :
  build_entry describe t = Raise e ->
  Forall (λ b, exists r, build_entry describe b = Ok r) before ->
  ∀ acc, collect_entries describe acc (before ++ t :: after) = Raise e.
Proof.
  intros Ht Hb. induction Hb as [|b bs [r Hr] _ IH]; intros acc; simpl.
  { by rewrite (bind_Raise _ _ _ Ht). }
  rewrite (bind_Ok _ _ _ Hr). apply IH.
Qed.

Lemma find_service_None (name : string) (l : list Service) :
  find_service name l = None <-> ∀ s, s ∈ l -> service_name s ≠ name.
Proof.
  induction l as [|s l IH]; simpl.
  { split; [|done]. intros _ s Hs. by apply not_elem_of_nil in Hs. }
  destruct (decide (service_name s = name)) as [Heq|Hne].
  - split; [discriminate|]. intros H. destruct (H s); [left|done].
  - rewrite IH. split.
    + intros H s' [->|Hs']%elem_of_cons; auto.
    + intros H s' Hs'. apply H. by right.
Qed.

(** *** The claims on build_catalog.py *)

(** C1 (amended). For every coordinate of the representative (first)
    variable without an explicit value list (the last one reported under
    its identifier), the emitted dimension's size is
    [int((max - min) / step) + 1], the float quotient truncated toward
    zero, whenever the reported step is not zero; the truncation is the
    floor whenever the quotient is not negative. The size is null exactly
    when no step is reported or the reported step is zero. *)
Theorem build_entry_range_size (t : Target) cat prod part svc ref_var vars :
  describe (dataset_id t) = Ok cat ->
  delivery_part cat = Some (prod, part) ->
  find_service (preferred_service t) (services part) = Some svc ->
  service_format svc = Some "zarr" ->
  variables svc = ref_var :: vars ->
  Forall (λ c, range_ok c = true) (coordinates ref_var) ->
  exists e,
    build_entry describe t = Ok (Some e) ∧
    ∀ i c, last_with_id (coordinates ref_var) i c -> values c = None ->
      exists dim,
        e_dimensions e !! coordinate_id c = Some dim ∧
        (∀ st, step c = Some st -> float_bool st = true ->
           exists lo hi n,
             minimum_value c = Some lo ∧ maximum_value c = Some hi ∧
             float_int (SFdiv prec emax (float_sub hi lo) st) = Ok n ∧
             dim !! "size" = Some (PyInt (n + 1)) ∧
             (float_nonneg (SFdiv prec emax (float_sub hi lo) st) = true ->
              float_floor (SFdiv prec emax (float_sub hi lo) st) = Ok n)) ∧
        (dim !! "size" = Some PyNone <->
         step c = None ∨ exists s, step c = Some (S754_zero s)).
Proof.
  intros Hd Hp Hs Hf Hv Hok.
  destruct (build_entry_dimensions _ _ _ _ _ _ _ Hd Hp Hs Hf Hv Hok)
    as (e & He & _ & _ & Hdims & _).
  exists e. split; [exact He|]. intros i c Hl Hvals.
  destruct (Hdims i c Hl) as (dim & Hdim & Hlook).
  exists dim. split; [exact Hlook|].
  destruct (build_dim_range _ _ Hvals Hdim) as (sz & Hsz & Hsize & _).
  apply range_size_cases in Hsz. split.
  - intros st Hst Hb. rewrite Hst, Hb in Hsz.
    destruct Hsz as (lo & hi & n & Hlo & Hhi & Hn & ->).
    exists lo, hi, n. repeat split; try done.
    intros Hq. by apply float_int_floor_nonneg.
  - rewrite Hsize. destruct (step c) as [st|]; [|naive_solver].
    destruct (float_bool st) eqn:Hb.
    + destruct Hsz as (lo & hi & n & _ & _ & _ & ->). split; [discriminate|].
      intros [?|[s [= ->]]]; discriminate.
    + subst sz. split; [|done]. intros _. right.
      destruct st; try discriminate. eauto.
Qed.

(** C3 (amended). An exception raised by the metadata provider for one
    target is not caught: it is the outcome of [build_entry] for that
    target and, when the targets before it are processed without an
    exception, of the whole [build_catalog], whatever the targets after
    it are; no catalog is produced. *)
Theorem provider_fault_aborts_build (before : list Target) t after now e :
  describe (dataset_id t) = Raise e ->
  Forall (λ b, exists r, build_entry describe b = Ok r) before ->
  build_entry describe t = Raise e ∧
  build_catalog describe (before ++ t :: after) now = Raise e.
Proof.
  intros Hd Hb.
  assert (Ht : build_entry describe t = Raise e).
  { unfold build_entry. by rewrite (bind_Raise _ _ _ Hd). }
  split; [exact Ht|]. unfold build_catalog.
  by rewrite (collect_entries_raise _ _ _ _ Ht Hb).
Qed.

(** C7. For a target whose delivery part has no service named
    [preferred_service], or whose first service of that name is not in the
    zarr format, [build_entry] returns the absent entry, and
    [build_catalog] gives the catalog it gives without that target: when
    the other targets are processed without an exception, their entries in
    the configured order. *)
Theorem unmatched_service_is_omitted (t : Target) cat prod part :
  describe (dataset_id t) = Ok cat ->
  delivery_part cat = Some (prod, part) ->
  (∀ s, s ∈ services part -> service_name s ≠ preferred_service t) ∨
  (exists svc,
     find_service (preferred_service t) (services part) = Some svc ∧
     service_format svc ≠ Some "zarr") ->
  build_entry describe t = Ok None ∧
  (∀ before after now,
     build_catalog describe (before ++ t :: after) now =
     build_catalog describe (before ++ after) now) ∧
  (∀ before after rs1 rs2 now,
     Forall2 (λ b r, build_entry describe b = Ok r) before rs1 ->
     Forall2 (λ a r, build_entry describe a = Ok r) after rs2 ->
     build_catalog describe (before ++ t :: after) now =
     Ok {| generated := now;
           catalog_datasets := omap id rs1 ++ omap id rs2 |}).
Proof.
  intros Hd Hp Hsvc.
  assert (Ht : build_entry describe t = Ok None).
  { rewrite (build_entry_at_part _ _ _ _ Hd Hp).
    destruct Hsvc as [Hnone|(svc & Hfind & Hfmt)].
    - apply find_service_None in Hnone. by rewrite Hnone.
    - rewrite Hfind. by rewrite decide_False. }
  split; [exact Ht|]. split.
  - intros before after now. unfold build_catalog.
    by rewrite (collect_entries_skip _ _ _ Ht).
  - intros before after rs1 rs2 now H1 H2. unfold build_catalog.
    rewrite (collect_entries_skip _ _ _ Ht).
    rewrite (collect_entries_all (before ++ after) (rs1 ++ rs2)).
    + simpl. by rewrite omap_app.
    + by apply Forall2_app.
Qed.


(** C9 (amended). Every dimension descriptor emitted by [build_entry]
    populates at most one of the explicit value list and the
    min/max/step range, and exactly one unless the provider reports
    neither values nor any range field for the coordinate: when the
    provider supplies explicit values, the descriptor records them with
    size equal to their number and carries no min, max or step; otherwise
    it carries exactly the range fields that the provider reported. *)
Theorem build_entry_dimension_fields (t : Target) cat prod part svc ref_var vars :
  describe (dataset_id t) = Ok cat ->
  delivery_part cat = Some (prod, part) ->
  find_service (preferred_service t) (services part) = Some svc ->
  service_format svc = Some "zarr" ->
  variables svc = ref_var :: vars ->
  Forall (λ c, range_ok c = true) (coordinates ref_var) ->
  exists e,
    build_entry describe t = Ok (Some e) ∧
    ∀ k dim, e_dimensions e !! k = Some dim ->
      exists c,
        c ∈ coordinates ref_var ∧ coordinate_id c = k ∧
        ¬ (has_values dim ∧ has_range dim) ∧
        (exactly_one_populated dim <->
         values c ≠ None ∨ minimum_value c ≠ None ∨
         maximum_value c ≠ None ∨ step c ≠ None) ∧
        (∀ vs, values c = Some vs ->
           dim !! "values" = Some (PyList vs) ∧
           dim !! "size" = Some (PyInt (Z.of_nat (length vs))) ∧
           dim !! "min" = None ∧ dim !! "max" = None ∧ dim !! "step" = None) ∧
        (values c = None ->
           dim !! "values" = None ∧
           dim !! "min" = PyFloat <$> minimum_value c ∧
           dim !! "max" = PyFloat <$> maximum_value c ∧
           dim !! "step" = PyFloat <$> step c).
Proof.
  intros Hd Hp Hs Hf Hv Hok.
  destruct (build_entry_dimensions _ _ _ _ _ _ _ Hd Hp Hs Hf Hv Hok)
    as (e & He & _ & _ & _ & Horigin).
  exists e. split; [exact He|]. intros k dim Hk.
  destruct (Horigin k dim Hk) as (c & Hc & Hid & Hdim).
  exists c. do 2 (split; [done|]).
  unfold exactly_one_populated, has_values, has_range.
  destruct (values c) as [vs|] eqn:Hvals.
  - destruct (build_dim_explicit _ _ _ Hvals Hdim) as (H1 & H2 & H3 & H4 & H5).
    rewrite H1, H2, H3, H4, H5.
    assert (Hnr : ¬ (@is_Some pyval None ∨ @is_Some pyval None ∨
                     @is_Some pyval None)).
    { intros [H|[H|H]]; by apply is_Some_None in H. }
    split; [tauto|]. split.
    { split; [by left|]. intros _. left. split; [by eexists|done]. }
    split; [by intros vs' [= <-]|done].
  - destruct (build_dim_range _ _ Hvals Hdim)
      as (sz & _ & _ & H1 & H2 & H3 & H4).
    rewrite H1, H2, H3, H4. rewrite !fmap_is_Some.
    assert (Hnv : ¬ @is_Some pyval None) by (intros H; by apply is_Some_None in H).
    rewrite <- !not_eq_None_Some.
    split; [tauto|]. split; [intuition congruence|]. split; [done|done].
Qed.

(** C10. [build_entry] returns without an exception only when every
    level of the hierarchy below the products is non-empty: an empty
    products list gives the absent entry, while a first product without
    datasets, a first dataset without versions, a first version without
    parts, or a matched zarr service without variables raises
    [IndexError]. *)
Theorem build_entry_positional_accesses (t : Target) cat :
  describe (dataset_id t) = Ok cat ->
  (products cat = [] -> build_entry describe t = Ok None) ∧
  (∀ prod, head (products cat) = Some prod -> datasets prod = [] ->
     build_entry describe t = Raise IndexError) ∧
  (∀ prod ds, head (products cat) = Some prod ->
     head (datasets prod) = Some ds -> versions ds = [] ->
     build_entry describe t = Raise IndexError) ∧
  (∀ prod ds ver, head (products cat) = Some prod ->
     head (datasets prod) = Some ds -> head (versions ds) = Some ver ->
     parts ver = [] ->
     build_entry describe t = Raise IndexError) ∧
  (∀ prod part svc, delivery_part cat = Some (prod, part) ->
     find_service (preferred_service t) (services part) = Some svc ->
     service_format svc = Some "zarr" -> variables svc = [] ->
     build_entry describe t = Raise IndexError) ∧
  (∀ r, build_entry describe t = Ok r ->
     products cat = [] ∨
     exists prod part,
       delivery_part cat = Some (prod, part) ∧
       (r = None ∨
        exists svc,
          find_service (preferred_service t) (services part) = Some svc ∧
          variables svc ≠ [])).
Proof.
  intros Hd. unfold build_entry. rewrite (bind_Ok _ _ _ Hd).
  split; [by intros ->|].
  split.
  { intros prod Hp Hds. destruct (products cat) as [|p ps]; [done|].
    injection Hp as ->. simpl. by rewrite Hds. }
  split.
  { intros prod ds Hp Hds Hv. destruct (products cat) as [|p ps]; [done|].
    injection Hp as ->. simpl.
    destruct (datasets prod) as [|d dss]; [done|]. injection Hds as ->.
    simpl. by rewrite Hv. }
  split.
  { intros prod ds ver Hp Hds Hv Hpt.
    destruct (products cat) as [|p ps]; [done|]. injection Hp as ->. simpl.
    destruct (datasets prod) as [|d dss]; [done|]. injection Hds as ->. simpl.
    destruct (versions ds) as [|v vs]; [done|]. injection Hv as ->. simpl.
    by rewrite Hpt. }
  split.
  { intros prod part svc Hp Hs Hf Hv.
    pose proof (build_entry_at_part t _ _ _ Hd Hp) as Hb.
    unfold build_entry in Hb. rewrite (bind_Ok _ _ _ Hd) in Hb.
    rewrite Hb, Hs, decide_True by done. by rewrite Hv. }
  intros r Hr. unfold delivery_part.
  destruct (products cat) as [|p ps]; [by left|]. right. simpl in Hr |- *.
  destruct (datasets p) as [|d dss]; [done|]. simpl in Hr |- *.
  destruct (versions d) as [|v vs]; [done|]. simpl in Hr |- *.
  destruct (parts v) as [|pt pts]; [done|]. simpl in Hr |- *.
  exists p, pt. split; [done|].
  destruct (find_service _ _) as [svc|]; [|injection Hr as <-; by left].
  destruct (decide _); [|injection Hr as <-; by left].
  right. exists svc. split; [done|].
  destruct (variables svc); [done|done].
Qed.

End CatalogProperties.

(** * Properties of subset_zarr.py *)

Section TranscoderProperties.

Import subset_zarr.

(** *** The encoding *)

Lemma build_encoding_lookup (ds : Dataset) (names : list string) :
  ∀ (encoding : gmap string Encoding) (name : string),
    build_encoding ds encoding names !! name =
      match variables ds !! name with
      | Some a =>
          if decide (name ∈ names) then
            Some {| enc_compressor := Zlib 5;
                    enc_chunks := if decide (name ∈ VARIABLES)
                                  then Some (encoded_chunks a) else None |}
          else encoding !! name
      | None => encoding !! name
      end.
Proof.
  induction names as [|n names IH]; intros encoding name;
    cbn [build_encoding].
  { destruct (variables ds !! name); [|done].
    destruct (decide (name ∈ [])) as [H|]; [|done].
    by apply not_elem_of_nil in H. }
  destruct (variables ds !! n) as [an|] eqn:Hn; rewrite IH.
  - destruct (variables ds !! name) as [a|] eqn:Ha.
    + destruct (decide (name ∈ names)) as [Hin|Hnin],
        (decide (name ∈ n :: names)) as [Hin'|Hnin']; try done.
      * destruct Hnin'. set_solver.
      * apply elem_of_cons in Hin' as [->|?]; [|done].
        rewrite lookup_insert_eq. rewrite Hn in Ha. by injection Ha as ->.
      * apply lookup_insert_ne. intros ->. destruct Hnin'. set_solver.
    + apply lookup_insert_ne. intros ->. congruence.
  - destruct (variables ds !! name) as [a|] eqn:Ha; [|done].
    destruct (decide (name ∈ names)) as [Hin|Hnin],
      (decide (name ∈ n :: names)) as [Hin'|Hnin']; try done.
    + destruct Hnin'. set_solver.
    + apply elem_of_cons in Hin' as [->|?]; [congruence|done].
Qed.

Lemma encoded_chunks_lookup (a : DataArray) (i : nat) d s :
  dims a !! i = Some d -> shape a !! i = Some s ->
  encoded_chunks a !! i = Some (default s (chunk_sizes !! d)).
Proof.
  intros Hd Hs. unfold encoded_chunks.
  rewrite lookup_zip_with, Hd. simpl. by rewrite Hs.
Qed.

(** C5 (amended). The explicit chunk-size tuple recorded in the encoding
    of a data variable holds, in the variable's own axis order, the
    configured target chunk size of every axis that has one, whatever the
    extent of the array along that axis: it is not clipped. It holds the
    extent for an axis without a configured size. The other arrays get no
    chunk tuple. The block shape of the in-memory re-chunking is clipped
    to the extent, and is dropped by the materialization that follows. *)
Theorem encoding_chunks_are_configured (ds : Dataset) (name : string) a :
  variables ds !! name = Some a ->
  name ∈ encoded_names ->
  exists enc,
    build_encoding ds ∅ encoded_names !! name = Some enc ∧
    enc_compressor enc = Zlib 5 ∧
    (name ∈ VARIABLES ->
       enc_chunks enc = Some (encoded_chunks a) ∧
       ∀ i d s, dims a !! i = Some d -> shape a !! i = Some s ->
         (∀ c, chunk_sizes !! d = Some c -> encoded_chunks a !! i = Some c) ∧
         (chunk_sizes !! d = None -> encoded_chunks a !! i = Some s)) ∧
    (name ∉ VARIABLES -> enc_chunks enc = None) ∧
    (∀ chunked, chunk chunk_sizes ds = Ok chunked ->
       chunked.2 !! name = Some (clipped_chunks a) ∧ compute chunked = ds).
Proof.
  intros Ha Hin. eexists. split.
  { rewrite build_encoding_lookup, Ha.
    by rewrite (decide_True (P := name ∈ encoded_names)). }
  simpl. split; [done|]. split; [|split].
  - intros Hv. rewrite decide_True by done. split; [done|].
    intros i d s Hd Hs. rewrite (encoded_chunks_lookup _ _ _ _ Hd Hs).
    split; [by intros c ->|by intros ->].
  - intros Hv. by rewrite decide_False.
  - intros chunked. unfold chunk. destruct (decide _); [|done].
    intros [= <-]. simpl. by rewrite lookup_fmap, Ha.
Qed.

(** *** The latest time step *)

Lemma cell_of_Cell (cs : list cell) : cell_of <$> (Cell <$> cs) = cs.
Proof. induction cs as [|c cs IH]; [done|]. csimpl. by rewrite IH. Qed.

Lemma list_find_last (ts : list cell) (t : cell) :
  last ts = Some t -> NoDup (canon <$> ts) ->
  list_find (λ c, canon c = canon t) ts = Some (pred (length ts), t).
Proof.
  intros Hlast Hnd. rewrite last_lookup in Hlast.
  apply list_find_Some. split; [done|]. split; [done|].
  intros j y Hj Hlt Heq.
  assert (j = pred (length ts)); [|lia].
  apply (NoDup_lookup _ _ _ (canon y) Hnd).
  - by rewrite list_lookup_fmap, Hj.
  - by rewrite list_lookup_fmap, Hlast, Heq.
Qed.

Lemma isel_dims (d : string) (i : nat) (a : DataArray) :
  dims (isel d i a) = dims a.
Proof. unfold isel. by destruct (decide _). Qed.

Lemma isel_dtype (d : string) (i : nat) (a : DataArray) :
  dtype_of (isel d i a) = dtype_of a.
Proof. unfold isel. by destruct (decide _). Qed.

(** The selected axis has length one. *)
Lemma isel_shape (d : string) (p : nat) (a : DataArray) (i : nat) :
  length (dims a) = length (shape a) ->
  dims a !! i = Some d ->
  shape (isel d p a) !! i = Some 1%nat.
Proof.
  intros Hlen Hd. unfold isel.
  rewrite decide_True by (by eapply list_elem_of_lookup_2). simpl.
  destruct (lookup_lt_is_Some_2 (shape a) i) as [n Hn].
  { rewrite <- Hlen. by eapply lookup_lt_Some. }
  rewrite lookup_zip_with, Hd. simpl. rewrite Hn. simpl.
  by rewrite decide_True.
Qed.

Lemma isel_other (d : string) (p : nat) (a : DataArray) :
  d ∉ dims a -> isel d p a = a.
Proof. intros Hd. unfold isel. by rewrite decide_False. Qed.

#[local] Instance Qle_transitive : Transitive Qle := Qle_trans.

(** What [select_latest] returns on a time axis that is not empty and holds
    no value twice. *)
Lemma select_latest_spec (ds : Dataset) tm (ts : list cell) t :
  variables ds !! "time" = Some tm ->
  dims tm = ["time"] ->
  data tm = Axis (Cell <$> ts) ->
  last ts = Some t ->
  NoDup (canon <$> ts) ->
  exists ds',
    select_latest ds = Ok ds' ∧
    variables ds' = isel "time" (pred (length ts)) <$> variables ds ∧
    coord_names ds' = coord_names ds ∧
    attr_values ds' "time" = Ok [t] ∧
    (∀ name a i,
       variables ds !! name = Some a ->
       length (dims a) = length (shape a) ->
       dims a !! i = Some "time" ->
       exists a', variables ds' !! name = Some a' ∧
                  shape a' !! i = Some 1%nat) ∧
    (∀ qs, ts = Some <$> qs -> Sorted Qle qs -> selects_maximum ts [t]).
Proof.
  intros Htm Hdims Hdata Hlast Hnd.
  assert (Hvals : attr_values ds "time" = Ok ts).
  { unfold attr_values. rewrite Htm, Hdata. simpl.
    by rewrite cell_of_Cell. }
  eexists. split.
  { unfold select_latest. rewrite (bind_Ok _ _ _ Hvals). unfold item_last.
    rewrite Hlast. simpl. unfold sel_time. rewrite (bind_Ok _ _ _ Hvals).
    rewrite decide_True by done.
    by rewrite (list_find_last _ _ Hlast Hnd). }
  simpl. split; [done|]. split; [done|]. split; [|split].
  - unfold attr_values. simpl. rewrite lookup_fmap, Htm. simpl.
    unfold isel. rewrite Hdims.
    rewrite decide_True by (apply list_elem_of_here). simpl.
    rewrite Hdata. simpl.
    rewrite list_lookup_fmap, <- last_lookup, Hlast. done.
  - intros name a i Ha Hlen Hi. eexists. split.
    { rewrite lookup_fmap, Ha. reflexivity. }
    by apply isel_shape.
  - intros qs -> Hs. rewrite fmap_last in Hlast.
    destruct (last qs) as [m|] eqn:Hm; [|done]. injection Hlast as <-.
    exists m. split; [done|]. split.
    { apply list_elem_of_fmap. exists m. split; [done|].
      by apply last_Some_elem_of. }
    intros q Hq. apply list_elem_of_fmap in Hq as (q' & [= <-] & Hq).
    apply last_Some in Hm as [qs' ->].
    apply elem_of_app in Hq as [Hq|Hq].
    + apply Sorted_StronglySorted in Hs; [|apply _].
      eapply (StronglySorted_app_1_elem_of _ _ _ _ _ Hs Hq).
      apply list_elem_of_here.
    + apply list_elem_of_singleton in Hq as ->. apply Qle_refl.
Qed.

(** *** Coarsening *)

Section Coarsening.

Variable block_mean : list cell -> cell.

Lemma list_bind_bind {A B C : Type} (f : A -> list B) (g : B -> list C)
    (l : list A) :
  (l ≫= f) ≫= g = l ≫= (λ x, f x ≫= g).
Proof.
  induction l as [|x l IH]; [done|]. csimpl. by rewrite bind_app, IH.
Qed.

Lemma list_fmap_of_bind {A B C : Type} (f : A -> list B) (h : B -> C)
    (l : list A) :
  h <$> (l ≫= f) = l ≫= (λ x, h <$> f x).
Proof.
  induction l as [|x l IH]; [done|]. csimpl. by rewrite fmap_app, IH.
Qed.

(** A slice of a list, position by position. *)
Lemma take_drop_seq {A : Type} (l : list A) (w : nat) :
  ∀ s, take w (drop s l) = seq s w ≫= λ j, option_list (l !! j).
Proof.
  induction w as [|w IH]; intros s; [by rewrite take_0|].
  csimpl. destruct (l !! s) as [x|] eqn:Hs.
  - rewrite (drop_S _ _ _ Hs). simpl. by rewrite IH.
  - apply lookup_ge_None in Hs. rewrite drop_ge by done. simpl.
    rewrite <- IH, drop_ge by lia. by rewrite take_nil.
Qed.

Lemma wf_nd_children (n : nat) (sh : list nat) (a : nd) :
  wf_nd (n :: sh) a ->
  length (children a) = n ∧ Forall (wf_nd sh) (children a).
Proof. by intros (l & -> & Hlen & Hall). Qed.

(** Within a window: the positions of a block lie within the axis. *)
Lemma window_within (i n w : nat) : (i < n / w -> i * w + w ≤ n)%nat.
Proof.
  intros Hi. destruct w as [|w]; [simpl in Hi; lia|].
  pose proof (Nat.Div0.mul_div_le n (S w)). nia.
Qed.

(** The coarsened array has the coarsened shape. *)
Lemma coarsen_nd_wf (windows : gmap string nat) (ds : list string) :
  ∀ sh members,
    length ds = length sh ->
    wf_nd (coarsen_shape windows ds sh)
      (coarsen_nd block_mean windows ds sh members).
Proof.
  induction ds as [|d ds IH]; intros [|n sh] members Hlen; try done.
  { simpl. eauto. }
  injection Hlen as Hlen. cbn [coarsen_nd coarsen_shape zip_with].
  destruct (windows !! d) as [w|]; simpl; eexists; (split; [done|]);
    rewrite length_fmap, length_seq; (split; [done|]);
    apply Forall_fmap, Forall_forall; intros i _; by apply IH.
Qed.

(** Each cell of the coarsened array is the mean of the cells of its
    block, over the members. *)
Lemma coarsen_nd_at (windows : gmap string nat) (ds : list string) :
  ∀ sh idx members,
    length ds = length sh ->
    Forall (wf_nd sh) members ->
    in_bounds idx (coarsen_shape windows ds sh) ->
    nd_at idx (coarsen_nd block_mean windows ds sh members) =
      Some (block_mean (members ≫= λ m, cell_at m <$> block windows ds idx)).
Proof.
  induction ds as [|d ds IH]; intros [|n sh] idx members Hlen Hwf Hidx;
    try done.
  { apply Forall2_nil_inv_r in Hidx as ->. simpl. do 2 f_equal.
    induction Hwf as [|m ms [v ->] _ IHm]; [done|]. csimpl. by rewrite IHm. }
  injection Hlen as Hlen. cbn [coarsen_shape zip_with] in Hidx.
  apply Forall2_cons_inv_r in Hidx as (i & idx' & Hi & Hidx' & ->).
  cbn [coarsen_nd block]. destruct (windows !! d) as [w|] eqn:Hw.
  - cbn [nd_at children]. rewrite list_lookup_fmap, lookup_seq_lt by done.
    simpl. rewrite IH; [|done| |done].
    2:{ apply Forall_bind. apply (Forall_impl _ _ _ Hwf). intros m Hm.
        apply wf_nd_children in Hm as [_ Hm]. simpl.
        by apply Forall_take, Forall_drop. }
    do 2 f_equal. rewrite list_bind_bind. apply Forall_bind_ext.
    apply (Forall_impl _ _ _ Hwf). intros m Hm.
    apply wf_nd_children in Hm as [Hn _].
    rewrite take_drop_seq, list_bind_bind, list_fmap_of_bind.
    apply Forall_bind_ext, Forall_forall. intros j Hj.
    apply elem_of_seq in Hj. pose proof (window_within _ _ _ Hi).
    destruct (lookup_lt_is_Some_2 (children m) j) as [c Hc]; [lia|].
    rewrite Hc. simpl. rewrite app_nil_r, <- list_fmap_compose.
    apply list_fmap_ext. intros _ r _. unfold cell_at. simpl.
    by rewrite Hc.
  - cbn [nd_at children]. rewrite list_lookup_fmap, lookup_seq_lt by done.
    simpl. rewrite IH; [|done| |done].
    2:{ apply Forall_bind. apply (Forall_impl _ _ _ Hwf). intros m Hm.
        apply wf_nd_children in Hm as [_ Hm]. simpl.
        destruct (children m !! i) as [c|] eqn:Hc; simpl; [|done].
        constructor; [|done]. by eapply (Forall_lookup_1 _ _ _ _ Hm). }
    do 2 f_equal. rewrite list_bind_bind. apply Forall_bind_ext.
    apply (Forall_impl _ _ _ Hwf). intros m Hm.
    apply wf_nd_children in Hm as [Hn _].
    destruct (lookup_lt_is_Some_2 (children m) i) as [c Hc]; [lia|].
    rewrite Hc. simpl. rewrite app_nil_r, <- list_fmap_compose.
    apply list_fmap_ext. intros _ r _. unfold cell_at. simpl.
    by rewrite Hc.
Qed.

(** The positions of a block lie within the array: nothing beyond the
    last full window is read. *)
Lemma block_in_bounds (windows : gmap string nat) (ds : list string) :
  ∀ sh idx,
    length ds = length sh ->
    in_bounds idx (coarsen_shape windows ds sh) ->
    Forall (λ j, in_bounds j sh) (block windows ds idx).
Proof.
  induction ds as [|d ds IH]; intros [|n sh] idx Hlen Hidx; try done.
  { apply Forall2_nil_inv_r in Hidx as ->. repeat constructor. }
  injection Hlen as Hlen. cbn [coarsen_shape zip_with] in Hidx.
  apply Forall2_cons_inv_r in Hidx as (i & idx' & Hi & Hidx' & ->).
  cbn [block]. specialize (IH sh idx' Hlen Hidx').
  destruct (windows !! d) as [w|].
  - apply Forall_bind, Forall_forall. intros j Hj. simpl.
    apply elem_of_seq in Hj. pose proof (window_within _ _ _ Hi).
    apply Forall_fmap. apply (Forall_impl _ _ _ IH). intros r Hr. simpl.
    constructor; [lia|done].
  - apply Forall_fmap. apply (Forall_impl _ _ _ IH). intros r Hr. simpl.
    by constructor.
Qed.

(** A block has as many positions as its windows multiply to. *)
Lemma block_length (windows : gmap string nat) (ds : list string) :
  ∀ idx, length idx = length ds ->
    length (block windows ds idx) = block_size windows ds.
Proof.
  induction ds as [|d ds IH]; intros [|i idx] Hlen; try done.
  injection Hlen as Hlen. cbn [block block_size]. specialize (IH idx Hlen).
  destruct (windows !! d) as [w|]; simpl.
  - generalize (i * w)%nat. induction w as [|w IHw]; intros s; [done|].
    csimpl. rewrite length_app, length_fmap, IHw, IH. lia.
  - rewrite length_fmap, IH. lia.
Qed.

(** Positions of distinct cells of the coarsened array fall into distinct
    blocks: the output position of an input position is determined. *)
Lemma block_position (windows : gmap string nat) (ds : list string) :
  ∀ idx j, j ∈ block windows ds idx -> length idx = length ds ->
    Forall3 (λ d i p, match windows !! d with
                      | Some w => (i * w ≤ p < i * w + w)%nat
                      | None => p = i
                      end) ds idx j.
Proof.
  induction ds as [|d ds IH]; intros [|i idx] j Hj Hlen; try done.
  { apply list_elem_of_singleton in Hj as ->. constructor. }
  injection Hlen as Hlen. cbn [block] in Hj.
  destruct (windows !! d) as [w|] eqn:Hw.
  - apply list_elem_of_bind in Hj as (p & Hj & Hp).
    apply list_elem_of_fmap in Hj as (r & -> & Hr).
    apply elem_of_seq in Hp. constructor; [by rewrite Hw; lia|by apply IH].
  - apply list_elem_of_fmap in Hj as (r & -> & Hr).
    constructor; [by rewrite Hw|by apply IH].
Qed.

(** No position occurs twice in a block. *)
Lemma block_NoDup (windows : gmap string nat) (ds : list string) :
  ∀ idx, NoDup (block windows ds idx).
Proof.
  induction ds as [|d ds IH]; intros [|i idx]; cbn [block];
    try apply NoDup_singleton.
  destruct (windows !! d) as [w|].
  - apply NoDup_bind.
    + intros p p' j _ _ (r & -> & _)%list_elem_of_fmap
        (r' & [= -> _] & _)%list_elem_of_fmap. done.
    + intros p _. apply NoDup_fmap_2; [|apply IH]. by intros r r' [= ->].
    + apply NoDup_seq.
  - apply NoDup_fmap_2; [|apply IH]. by intros r r' [= ->].
Qed.

(** Within its shape, an array has a cell at every position. *)
Lemma nd_at_in_bounds (sh : list nat) :
  ∀ j a, wf_nd sh a -> in_bounds j sh -> is_Some (nd_at j a).
Proof.
  induction sh as [|n sh IH]; intros j a Hwf Hj.
  { apply Forall2_nil_inv_r in Hj as ->. destruct Hwf as [v ->]. by eexists. }
  apply Forall2_cons_inv_r in Hj as (i & j' & Hi & Hj' & ->).
  apply wf_nd_children in Hwf as [Hn Hall]. simpl.
  destruct (lookup_lt_is_Some_2 (children a) i) as [c Hc]; [lia|].
  rewrite Hc. simpl. apply IH; [|done].
  by eapply (Forall_lookup_1 _ _ _ _ Hall).
Qed.

Lemma spatial_windows_lookup (k : nat) (d : string) :
  spatial_windows k !! d =
    if decide (d = "latitude" ∨ d = "longitude") then Some k else None.
Proof.
  unfold spatial_windows.
  destruct (decide (d = "latitude")) as [->|Hlat].
  { rewrite lookup_insert_eq. by rewrite decide_True by auto. }
  rewrite lookup_insert_ne by done.
  destruct (decide (d = "longitude")) as [->|Hlon].
  { rewrite lookup_singleton_eq. by rewrite decide_True by auto. }
  rewrite lookup_singleton_ne by done. rewrite decide_False; [done|].
  by intros [?|?].
Qed.

(** The number of cells of a block of the spatial windows. *)
Lemma block_size_spatial (k : nat) (ds : list string) :
  block_size (spatial_windows k) ds =
    (k ^ length (filter (λ d, d = "latitude" ∨ d = "longitude") ds))%nat.
Proof.
  induction ds as [|d ds IH]; [done|]. cbn [block_size].
  rewrite spatial_windows_lookup, IH.
  destruct (decide (d = "latitude" ∨ d = "longitude")).
  - rewrite filter_cons_True by done. simpl. lia.
  - rewrite filter_cons_False by done. simpl. lia.
Qed.

(** With positive windows an array is coarsened without an error. *)
Lemma coarsen_array_positive (windows : gmap string nat) (a : DataArray) :
  map_Forall (λ _ w, (0 < w)%nat) windows ->
  coarsen_array block_mean windows a =
    Ok (coarsen_reduce block_mean windows a).
Proof.
  intros Hpos. unfold coarsen_array. rewrite decide_False; [done|].
  intros (d & _ & Hw)%Exists_exists. apply Hpos in Hw. lia.
Qed.

Lemma coarsen_mean_positive (windows : gmap string nat) (ds : Dataset) :
  map_Forall (λ d _, has_dim ds d) windows ->
  map_Forall (λ _ w, (0 < w)%nat) windows ->
  coarsen_mean block_mean windows ds =
    Ok {| variables := coarsen_reduce block_mean windows <$> variables ds;
          coord_names := coord_names ds |}.
Proof.
  intros Hdims Hpos. unfold coarsen_mean. rewrite decide_True by done.
  cbv zeta. rewrite decide_True.
  - do 2 f_equal. apply map_eq. intros name.
    rewrite lookup_omap, !lookup_fmap.
    destruct (variables ds !! name) as [a|]; [|done]. simpl.
    by rewrite coarsen_array_positive.
  - intros name r. rewrite lookup_fmap.
    destruct (variables ds !! name) as [a|]; [|done]. simpl.
    intros [= <-]. rewrite coarsen_array_positive by done. by eexists.
Qed.

Lemma spatial_windows_positive (k : nat) :
  (0 < k)%nat -> map_Forall (λ _ w, (0 < w)%nat) (spatial_windows k).
Proof.
  intros Hk d w. rewrite spatial_windows_lookup.
  destruct (decide _); [by intros [= <-]|done].
Qed.

Lemma coarsen_mean_returns (k : nat) (ds : Dataset) :
  (0 < k)%nat ->
  has_dim ds "latitude" -> has_dim ds "longitude" ->
  coarsen_mean block_mean (spatial_windows k) ds =
    Ok {| variables :=
            coarsen_reduce block_mean (spatial_windows k) <$> variables ds;
          coord_names := coord_names ds |}.
Proof.
  intros Hk Hlat Hlon. apply coarsen_mean_positive.
  - intros d w. rewrite spatial_windows_lookup.
    destruct (decide _) as [[->| ->]|]; done.
  - by apply spatial_windows_positive.
Qed.

(** A window of zero is refused: the call raises [ValueError]. *)
Lemma coarsen_mean_zero_window (ds : Dataset) :
  has_dim ds "latitude" ->
  coarsen_mean block_mean (spatial_windows 0) ds = Raise ValueError.
Proof.
  intros (name & a & Ha & Hd). unfold coarsen_mean.
  destruct (decide (map_Forall _ (spatial_windows 0))); [|done].
  cbv zeta. rewrite decide_False; [done|]. intros Hall.
  destruct (Hall name (coarsen_array block_mean (spatial_windows 0) a))
    as [a' Ha'].
  { by rewrite lookup_fmap, Ha. }
  unfold coarsen_array in Ha'. rewrite decide_True in Ha'; [done|].
  apply Exists_exists. exists "latitude". split; [done|].
  by rewrite spatial_windows_lookup.
Qed.

(** C6 (amended). Block-averaging with a coarsening factor k of at least
    1 maps each latitude and longitude axis of size n to size n / k (the
    cells beyond the last full block are dropped) and keeps the other
    axes; each output cell is the mean reduction of the cells of its
    block, which lie within the array. The block of the output position
    (i, ...) holds the positions between i * k and i * k + k - 1 along
    each of the latitude and longitude axes the array has, and the
    position itself along the other axes: k cells for an array over one
    of them, k * k cells for an array over both. An array over neither is
    left as it is. *)
Theorem coarsen_block_mean (k : nat) (ds : Dataset) :
  (0 < k)%nat ->
  has_dim ds "latitude" -> has_dim ds "longitude" ->
  exists ds',
    coarsen_mean block_mean (spatial_windows k) ds = Ok ds' ∧
    ∀ name a, variables ds !! name = Some a -> wf_array a ->
      exists a',
        variables ds' !! name = Some a' ∧
        dims a' = dims a ∧
        (∀ i d n, dims a !! i = Some d -> shape a !! i = Some n ->
           shape a' !! i =
             Some (if decide (d = "latitude" ∨ d = "longitude")
                   then (n / k)%nat else n)) ∧
        ((∀ d, d ∈ dims a -> ¬ (d = "latitude" ∨ d = "longitude")) ->
           a' = a) ∧
        ("latitude" ∈ dims a ∨ "longitude" ∈ dims a ->
           wf_array a' ∧
           ∀ idx, in_bounds idx (shape a') ->
             exists positions cells,
               positions = block (spatial_windows k) (dims a) idx ∧
               NoDup positions ∧
               length positions =
                 (k ^ length (filter (λ d, d = "latitude" ∨ d = "longitude")
                                (dims a)))%nat ∧
               (∀ j, j ∈ positions ->
                  Forall3 (λ d i p,
                             if decide (d = "latitude" ∨ d = "longitude")
                             then (i * k ≤ p < i * k + k)%nat else p = i)
                    (dims a) idx j) ∧
               Forall2 (λ j c, in_bounds j (shape a) ∧
                               nd_at j (data a) = Some c)
                 positions cells ∧
               nd_at idx (data a') = Some (block_mean cells)).
Proof.
  intros Hk Hlat Hlon. eexists. split; [by apply coarsen_mean_returns|].
  intros name a Ha [Hlen Hwf]. simpl. rewrite lookup_fmap, Ha. simpl.
  eexists. split; [done|].
  assert (Hshape : ∀ i d n, dims a !! i = Some d -> shape a !! i = Some n ->
            coarsen_shape (spatial_windows k) (dims a) (shape a) !! i =
              Some (if decide (d = "latitude" ∨ d = "longitude")
                    then (n / k)%nat else n)).
  { intros i d n Hd Hn. unfold coarsen_shape.
    rewrite lookup_zip_with, Hd. simpl. rewrite Hn. simpl.
    rewrite spatial_windows_lookup. by destruct (decide _). }
  unfold coarsen_reduce.
  destruct (decide (Exists _ (dims a))) as [Hex|Hnex]; simpl.
  - split; [done|]. split; [exact Hshape|]. split.
    { intros Hno. apply Exists_exists in Hex as (d & Hd & Hw).
      rewrite spatial_windows_lookup in Hw.
      destruct (decide _) as [Hsp|]; [|by destruct Hw].
      by destruct (Hno d Hd). }
    intros _. split.
    { split; simpl.
      - unfold coarsen_shape. rewrite length_zip_with. lia.
      - by apply coarsen_nd_wf. }
    intros idx Hidx.
    exists (block (spatial_windows k) (dims a) idx),
      (cell_at (data a) <$> block (spatial_windows k) (dims a) idx).
    assert (Hidx' : length idx = length (dims a)).
    { apply Forall2_length in Hidx. unfold coarsen_shape in Hidx.
      rewrite length_zip_with in Hidx. lia. }
    split; [done|]. split; [apply block_NoDup|].
    split; [by rewrite block_length, block_size_spatial|].
    split; [|split].
    + intros j Hj.
      apply (Forall3_impl _ _ _ _ _ (block_position _ _ _ _ Hj Hidx')).
      intros d i p. rewrite spatial_windows_lookup.
      by destruct (decide _).
    + apply Forall2_fmap_r, Forall_Forall2_diag.
      apply (Forall_impl _ _ _ (block_in_bounds _ _ _ _ Hlen Hidx)).
      intros j Hj. split; [done|]. unfold cell_at.
      by destruct (nd_at_in_bounds _ _ _ Hwf Hj) as [c ->].
    + rewrite coarsen_nd_at; [|done|by constructor|done].
      by rewrite bind_singleton.
  - split; [done|]. split.
    { intros i d n Hd Hn. rewrite Hn. f_equal.
      rewrite decide_False; [done|]. intros Hsp. apply Hnex.
      apply Exists_exists. exists d. split; [by eapply list_elem_of_lookup_2|].
      rewrite spatial_windows_lookup. by rewrite decide_True. }
    split; [done|].
    intros Hsp. destruct Hnex. apply Exists_exists.
    destruct Hsp as [Hd|Hd]; eexists; (split; [exact Hd|]);
      by rewrite spatial_windows_lookup.
Qed.

Lemma coarsen_reduce_dims (windows : gmap string nat) (a : DataArray) :
  dims (coarsen_reduce block_mean windows a) = dims a.
Proof. unfold coarsen_reduce. by destruct (decide _). Qed.

End Coarsening.

(** *** The cast to float32 *)

Lemma has_dim_intro (ds : Dataset) (name d : string) a :
  variables ds !! name = Some a -> d ∈ dims a -> has_dim ds d.
Proof. intros Ha Hd. by exists name, a. Qed.

Lemma cast_items_spec (f : Q -> Q) (names : list string) :
  ∀ ds,
    NoDup names ->
    (∀ n, n ∈ names -> is_Some (variables ds !! n)) ->
    exists ds',
      cast_items f ds names = Ok ds' ∧
      coord_names ds' = coord_names ds ∧
      ∀ name,
        variables ds' !! name =
          if decide (name ∈ names)
          then astype_float32 f <$> variables ds !! name
          else variables ds !! name.
Proof.
  induction names as [|n names IH]; intros ds Hnd Hall.
  { exists ds. split; [done|]. split; [done|]. intros name.
    destruct (decide (name ∈ [])) as [H|]; [|done].
    by apply not_elem_of_nil in H. }
  apply NoDup_cons in Hnd as [Hn Hnd].
  destruct (Hall n) as [a Ha]; [set_solver|].
  cbn [cast_items]. unfold cast_item at 1, getitem. rewrite Ha. simpl.
  destruct (IH (setitem ds n (astype_float32 f a)) Hnd) as (ds' & Hds' & Hc & Hv).
  { intros m Hm. simpl. rewrite lookup_insert_ne by set_solver.
    apply Hall. set_solver. }
  exists ds'. split; [done|]. split; [done|]. intros name. rewrite Hv. simpl.
  destruct (decide (name ∈ n :: names)) as [Hin'|Hnin'].
  - apply elem_of_cons in Hin' as [->|Hin].
    + rewrite decide_False by done. by rewrite lookup_insert_eq, Ha.
    + rewrite decide_True by done. rewrite lookup_insert_ne; [done|].
      by intros ->.
  - rewrite decide_False.
    2:{ intros H. apply Hnin', elem_of_cons. by right. }
    rewrite lookup_insert_ne; [done|].
    intros ->. apply Hnin', elem_of_cons. by left.
Qed.

Lemma downcast_cast_items (f : Q -> Q) (ds : Dataset) :
  downcast f ds = cast_items f ds downcast_names.
Proof.
  unfold downcast, downcast_names, VARIABLES. cbn [cast_items app].
  destruct (cast_item f ds "uo") as [d1|]; [|done]. simpl.
  destruct (cast_item f d1 "vo") as [d2|]; [|done]. simpl.
  destruct (cast_item f d2 "latitude") as [d3|]; [|done]. simpl.
  destruct (cast_item f d3 "longitude") as [d4|]; [|done]. simpl.
  by destruct (cast_item f d4 "depth").
Qed.

Lemma downcast_names_NoDup : NoDup downcast_names.
Proof. by apply (bool_decide_unpack _); vm_compute. Qed.

(** *** The stages of [prepare] *)

Lemma axis_coordinate_has_dim (ds : Dataset) (name : string) vs :
  axis_coordinate ds name vs -> has_dim ds name.
Proof.
  intros (a & Ha & Hd & _). apply (has_dim_intro _ _ _ _ Ha).
  rewrite Hd. apply list_elem_of_here.
Qed.

Lemma axis_coordinate_values (ds : Dataset) (name : string) vs :
  axis_coordinate ds name vs -> attr_values ds name = Ok vs.
Proof.
  intros (a & Ha & _ & Hdata). unfold attr_values. rewrite Ha, Hdata. simpl.
  by rewrite cell_of_Cell.
Qed.

Lemma axis_coordinate_isel (ds ds' : Dataset) (p : nat) (name : string) vs :
  variables ds' = isel "time" p <$> variables ds ->
  name ≠ "time" ->
  axis_coordinate ds name vs -> axis_coordinate ds' name vs.
Proof.
  intros Hv Hne (a & Ha & Hd & Hdata). exists a.
  rewrite Hv, lookup_fmap, Ha. simpl. rewrite isel_other; [done|].
  rewrite Hd. intros H%list_elem_of_singleton. congruence.
Qed.

(** A stage that keeps the axes of every variable keeps the axes of the
    dataset. *)
Lemma has_dim_preserved (ds ds' : Dataset) (d : string) :
  (∀ name a, variables ds !! name = Some a ->
     exists a', variables ds' !! name = Some a' ∧ dims a' = dims a) ->
  has_dim ds d -> has_dim ds' d.
Proof.
  intros Hkeep (name & a & Ha & Hd).
  destruct (Hkeep name a Ha) as (a' & Ha' & Hdims).
  apply (has_dim_intro _ _ _ _ Ha'). by rewrite Hdims.
Qed.

Lemma summary_returns (ds : Dataset) vd vlat vlon :
  axis_coordinate ds "depth" vd ->
  axis_coordinate ds "latitude" vlat -> vlat ≠ [] ->
  axis_coordinate ds "longitude" vlon -> vlon ≠ [] ->
  summary ds = Ok ().
Proof.
  intros Hd Hlat Hnlat Hlon Hnlon. unfold summary.
  rewrite (axis_coordinate_values _ _ _ Hd). simpl.
  rewrite (axis_coordinate_values _ _ _ Hlat). simpl.
  destruct (decide (vlat = [])); [done|]. simpl.
  rewrite (axis_coordinate_values _ _ _ Hlon). simpl.
  destruct (decide (vlon = [])); [done|]. simpl.
  apply axis_coordinate_has_dim in Hlat, Hlon.
  destruct (decide (has_dim ds "latitude")); [|done]. simpl.
  by destruct (decide (has_dim ds "longitude")).
Qed.

Lemma grid_size_returns (ds : Dataset) :
  has_dim ds "latitude" -> has_dim ds "longitude" -> grid_size ds = Ok ().
Proof.
  intros Hlat Hlon. unfold grid_size.
  destruct (decide (has_dim ds "latitude")); [|done]. simpl.
  by destruct (decide (has_dim ds "longitude")).
Qed.

Lemma chunk_sizes_keys (d : string) (c : nat) :
  chunk_sizes !! d = Some c ->
  d = "time" ∨ d = "depth" ∨ d = "latitude" ∨ d = "longitude".
Proof.
  unfold chunk_sizes. intros H.
  repeat (apply lookup_insert_Some in H as [[<- _]|[_ H]]; [tauto|]).
  apply lookup_singleton_Some in H as [<- _]. tauto.
Qed.

Lemma chunk_returns (ds : Dataset) :
  has_dim ds "time" -> has_dim ds "depth" ->
  has_dim ds "latitude" -> has_dim ds "longitude" ->
  chunk chunk_sizes ds = Ok (ds, block_shape chunk_sizes <$> variables ds).
Proof.
  intros Ht Hd Hlat Hlon. unfold chunk. rewrite decide_True; [done|].
  intros d c [->|[->|[->| ->]]]%chunk_sizes_keys; done.
Qed.

Lemma downcast_names_expected (n : string) :
  n ∈ downcast_names -> n ∈ expected_names.
Proof.
  intros H. unfold downcast_names, VARIABLES in H. simpl in H.
  unfold expected_names. apply elem_of_list_to_set.
  repeat (apply elem_of_cons in H as [->|H];
          [by apply (bool_decide_unpack _); vm_compute|]).
  by apply not_elem_of_nil in H.
Qed.

Lemma expected_names_cases (n : string) :
  n ∈ expected_names -> n = "time" ∨ n ∈ downcast_names.
Proof.
  unfold expected_names. intros H%elem_of_list_to_set.
  unfold encoded_names, VARIABLES in H. simpl in H.
  repeat (apply elem_of_cons in H as [->|H];
          [first [by left
                 |right; by apply (bool_decide_unpack _); vm_compute]|]).
  by apply not_elem_of_nil in H.
Qed.



(** *** Verification *)

Section Verification.

Variable open_dataset : string -> list string -> Q -> Q -> result Dataset.
Variable block_mean : list cell -> cell.
Variable to_float32 : Q -> Q.
Variable to_zarr : Dataset -> gmap string Encoding -> result (list File).
Variable zarr_open : list File -> result (list string).

(** C2 (amended). The verification step reopens the written store, sums
    the sizes of its files and reports the sum and the top-level names; it
    compares neither with an expectation. Once the store is written, the
    run ends with the message Done whatever the size and the names are,
    and fails only when reopening the store raises. *)
Theorem verification_only_reports (ds : Dataset) (files : list File) :
  prepare open_dataset block_mean to_float32 = Ok ds ->
  to_zarr ds (build_encoding ds ∅ encoded_names) = Ok files ->
  main open_dataset block_mean to_float32 to_zarr zarr_open =
    match zarr_open files with
    | Ok names =>
        Ok [StoreWritten; TotalSize (total_bytes files);
            StoreVariables names; Done]
    | Raise e => Raise e
    end.
Proof.
  intros Hp Hw. unfold main. rewrite (bind_Ok _ _ _ Hp). simpl.
  rewrite (bind_Ok _ _ _ Hw). unfold verify.
  by destruct (zarr_open files).
Qed.

End Verification.

End TranscoderProperties.

(** *** The claims at sample metadata *)

Import build_catalog.

Lemma regular_coordinates_ok :
  Forall (λ c, range_ok c = true) [regular_axis; explicit_axis].
Proof. repeat constructor. Qed.

Lemma irregular_coordinates_ok :
  Forall (λ c, range_ok c = true) [zero_step_axis; descending_axis; bare_axis].
Proof. repeat constructor. Qed.

(** The regular axis from 0 to 10 in steps of 2 is emitted with size 6. *)
Lemma build_entry_range_size_witness :
  exists e dim,
    build_entry sample_describe (sample_target "regular") = Ok (Some e) ∧
    e_dimensions e !! "longitude" = Some dim ∧
    dim !! "size" = Some (PyInt 6).
Proof.
  destruct (build_entry_range_size sample_describe (sample_target "regular")
              _ _ _ _ _ _ eq_refl eq_refl eq_refl eq_refl eq_refl
              regular_coordinates_ok) as (e & He & Hdims).
  destruct (Hdims 0%nat regular_axis) as (dim & Hdim & Hsz & _).
  { split; [reflexivity|]. intros [|[|j]] c' Hj Hc'; try lia.
    - injection Hc' as <-. discriminate.
    - discriminate. }
  { reflexivity. }
  exists e, dim. split; [exact He|]. split; [exact Hdim|].
  destruct (Hsz _ eq_refl eq_refl) as (lo & hi & n & Hlo & Hhi & Hn & Hsize & _).
  injection Hlo as <-. injection Hhi as <-.
  vm_compute in Hn. injection Hn as <-. exact Hsize.
Defined.

(** C1, counterexample. With the step reported as 0 the size is null
    although a step is reported; with the quotient -0.5 the size is
    [int(-0.5) + 1 = 1], not [floor(-0.5) + 1 = 0]. *)
Lemma size_as_specified_fails :
  exists e d0 d1,
    build_entry sample_describe (sample_target "irregular") = Ok (Some e) ∧
    e_dimensions e !! "depth" = Some d0 ∧
    d0 !! "size" = Some PyNone ∧
    ¬ size_as_specified zero_step_axis d0 ∧
    e_dimensions e !! "latitude" = Some d1 ∧
    d1 !! "size" = Some (PyInt 1) ∧
    ¬ size_as_specified descending_axis d1.
Proof.
  destruct (build_entry_dimensions sample_describe (sample_target "irregular")
              _ _ _ _ _ _ eq_refl eq_refl eq_refl eq_refl eq_refl
              irregular_coordinates_ok) as (e & He & _ & _ & Hdims & _).
  destruct (Hdims 0%nat zero_step_axis) as (d0 & Hd0 & Hl0).
  { split; [reflexivity|]. intros [|[|[|j]]] c' Hj [= <-]; lia || discriminate. }
  destruct (Hdims 1%nat descending_axis) as (d1 & Hd1 & Hl1).
  { split; [reflexivity|]. intros [|[|[|j]]] c' Hj [= <-]; lia || discriminate. }
  destruct (build_dim_range zero_step_axis _ eq_refl Hd0) as (sz0 & Hsz0 & Hs0 & _).
  destruct (build_dim_range descending_axis _ eq_refl Hd1) as (sz1 & Hsz1 & Hs1 & _).
  vm_compute in Hsz0. injection Hsz0 as <-.
  vm_compute in Hsz1. injection Hsz1 as <-.
  exists e, d0, d1. split; [exact He|]. split; [exact Hl0|].
  split; [exact Hs0|]. split.
  { intros [_ H]. specialize (H Hs0). discriminate H. }
  split; [exact Hl1|]. split; [exact Hs1|].
  intros [H _].
  specialize (H _ _ _ _ _ eq_refl eq_refl eq_refl eq_refl eq_refl).
  rewrite Hs1 in H. vm_compute in H. discriminate H.
Qed.

(** C3, counterexample. The provider raises for the first of two targets:
    the build raises too, although the build over the second target alone
    gives a catalog with its entry. *)
Lemma provider_fault_is_not_skipped :
  sample_describe "unknown" = Raise (ProviderError "unknown dataset") ∧
  build_catalog sample_describe
    [sample_target "unknown"; sample_target "regular"] sample_now
  = Raise (ProviderError "unknown dataset") ∧
  (exists c,
     build_catalog sample_describe [sample_target "regular"] sample_now = Ok c ∧
     e_id <$> catalog_datasets c = ["regular"]) ∧
  ¬ fault_is_skipped sample_describe
      [] (sample_target "unknown") [sample_target "regular"] sample_now.
Proof.
  split; [reflexivity|]. split; [reflexivity|]. split.
  { eexists. split; [vm_compute; reflexivity|]. reflexivity. }
  unfold fault_is_skipped. intros H. vm_compute in H. discriminate H.
Qed.

(** The build over a good target, a faulting one and another good one
    raises the provider's exception. *)
Lemma provider_fault_aborts_build_witness :
  build_entry sample_describe (sample_target "unknown")
  = Raise (ProviderError "unknown dataset") ∧
  build_catalog sample_describe
    [sample_target "regular"; sample_target "unknown";
     sample_target "irregular"] sample_now
  = Raise (ProviderError "unknown dataset").
Proof.
  apply (provider_fault_aborts_build sample_describe
           [sample_target "regular"] (sample_target "unknown")
           [sample_target "irregular"] sample_now).
  - reflexivity.
  - constructor; [|constructor]. eexists. vm_compute. reflexivity.
Defined.

(** A target whose preferred service is delivered as sqlite only, and a
    target whose preferred service does not exist, are omitted. *)
Lemma unmatched_service_is_omitted_witness :
  build_entry sample_describe (sample_target "sqlite-only") = Ok None ∧
  build_catalog sample_describe
    [sample_target "regular"; sample_target "sqlite-only";
     sample_target "irregular"] sample_now
  = build_catalog sample_describe
      [sample_target "regular"; sample_target "irregular"] sample_now ∧
  build_entry sample_describe
    {| dataset_id := "regular"; label := "Sample"; target_variables := ["uo"];
       preferred_service := "arco-time-chunked" |} = Ok None.
Proof.
  destruct (unmatched_service_is_omitted sample_describe
              (sample_target "sqlite-only") _ _ _ eq_refl eq_refl) as (H1 & H2 & _).
  { right. eexists. split; [reflexivity|]. discriminate. }
  split; [exact H1|]. split.
  { exact (H2 [sample_target "regular"] [sample_target "irregular"] sample_now). }
  apply (unmatched_service_is_omitted sample_describe
           {| dataset_id := "regular"; label := "Sample";
              target_variables := ["uo"];
              preferred_service := "arco-time-chunked" |} _ _ _ eq_refl eq_refl).
  left. intros s Hs.
  repeat (apply elem_of_cons in Hs as [->|Hs]; [discriminate|]).
  by apply not_elem_of_nil in Hs.
Defined.

(** C9, counterexample. For a coordinate with neither values nor a range
    the emitted descriptor populates neither alternative. *)
Lemma exactly_one_populated_fails :
  exists e dim,
    build_entry sample_describe (sample_target "irregular") = Ok (Some e) ∧
    e_dimensions e !! "time" = Some dim ∧
    dim !! "size" = Some PyNone ∧
    ¬ has_values dim ∧ ¬ has_range dim ∧
    ¬ exactly_one_populated dim.
Proof.
  destruct (build_entry_dimensions sample_describe (sample_target "irregular")
              _ _ _ _ _ _ eq_refl eq_refl eq_refl eq_refl eq_refl
              irregular_coordinates_ok) as (e & He & _ & _ & Hdims & _).
  destruct (Hdims 2%nat bare_axis) as (dim & Hd & Hl).
  { split; [reflexivity|]. intros [|[|[|j]]] c' Hj [= <-]; lia || discriminate. }
  destruct (build_dim_range bare_axis _ eq_refl Hd)
    as (sz & Hsz & Hs & Hv & Hmin & Hmax & Hstep).
  vm_compute in Hsz. injection Hsz as <-.
  simpl in Hmin, Hmax, Hstep.
  assert (Hnv : ¬ has_values dim).
  { unfold has_values. rewrite Hv. by intros [? [=]]. }
  assert (Hnr : ¬ has_range dim).
  { unfold has_range. rewrite Hmin, Hmax, Hstep.
    by intros [[? [=]]|[[? [=]]|[? [=]]]]. }
  exists e, dim. split; [exact He|]. split; [exact Hl|]. split; [exact Hs|].
  split; [exact Hnv|]. split; [exact Hnr|].
  unfold exactly_one_populated. tauto.
Qed.

(** The descriptors of the regular sample populate at most one
    alternative, and the explicit axis records its three values. *)
Lemma build_entry_dimension_fields_witness :
  exists e,
    build_entry sample_describe (sample_target "regular") = Ok (Some e) ∧
    ∀ k dim, e_dimensions e !! k = Some dim ->
      ¬ (has_values dim ∧ has_range dim).
Proof.
  destruct (build_entry_dimension_fields sample_describe
              (sample_target "regular")
              _ _ _ _ _ _ eq_refl eq_refl eq_refl eq_refl eq_refl
              regular_coordinates_ok) as (e & He & Hdims).
  exists e. split; [exact He|]. intros k dim Hk.
  destruct (Hdims k dim Hk) as (c & _ & _ & Hmost & _). exact Hmost.
Defined.

(** A product without datasets and a zarr service without variables make
    [build_entry] raise; an empty products list does not. *)
Lemma build_entry_positional_accesses_witness :
  build_entry sample_describe (sample_target "no-datasets") = Raise IndexError ∧
  build_entry sample_describe (sample_target "no-variables") = Raise IndexError ∧
  build_entry sample_describe (sample_target "empty") = Ok None.
Proof.
  split; [|split].
  - destruct (build_entry_positional_accesses sample_describe
                (sample_target "no-datasets") _ eq_refl) as (_ & H & _).
    exact (H _ eq_refl eq_refl).
  - destruct (build_entry_positional_accesses sample_describe
                (sample_target "no-variables") _ eq_refl)
      as (_ & _ & _ & _ & H & _).
    exact (H _ _ _ eq_refl eq_refl eq_refl eq_refl).
  - destruct (build_entry_positional_accesses sample_describe
                (sample_target "empty") _ eq_refl) as (H & _).
    exact (H eq_refl).
Defined.

(** *** The claims at sample data *)

Import subset_zarr.

Lemma sample_contract : provider_contract (sample_dataset [5; 7]%Q).
Proof.
  split.
  - by apply (bool_decide_unpack _); vm_compute.
  - reflexivity.
  - exists [Some 5%Q; Some 7%Q]. split; [|split; [done|]].
    + by eexists.
    + by apply (bool_decide_unpack _); vm_compute.
  - exists [Some (1 # 2)%Q]. by eexists.
  - exists [Some 10%Q; Some 11%Q; Some 12%Q]. split; [by eexists|done].
  - exists (Some <$> [0; 1; 2; 3; 4; 5; 6]%Q). split; [by eexists|done].
Qed.

(** C2, counterexample. The writer loses every array but [uo]; the names
    of the store differ from the expected ones, and the run reports
    success. *)
Lemma verification_mismatch_reports_success :
  main (sample_open_dataset [5; 7]%Q) exact_mean quarter_floor
       lossy_to_zarr sample_zarr_open
  = Ok [StoreWritten; TotalSize 2148; StoreVariables ["uo"]; Done] ∧
  list_to_set ["uo"] ≠ expected_names.
Proof.
  split; [vm_compute; reflexivity|].
  intros H. apply (f_equal (λ s : gset string, bool_decide ("vo" ∈ s))) in H.
  vm_compute in H. discriminate H.
Qed.

(** The run with a writer that keeps every array reports what it finds. *)
Lemma verification_only_reports_witness :
  exists files names,
    main (sample_open_dataset [5; 7]%Q) exact_mean quarter_floor
         sample_to_zarr sample_zarr_open
    = Ok [StoreWritten; TotalSize (total_bytes files);
          StoreVariables names; Done].
Proof.
  destruct (prepare (sample_open_dataset [5; 7]%Q) exact_mean quarter_floor)
    as [ds|e] eqn:Hp; [|vm_compute in Hp; discriminate Hp].
  pose proof (verification_only_reports (sample_open_dataset [5; 7]%Q)
                exact_mean quarter_floor sample_to_zarr sample_zarr_open ds _
                Hp eq_refl) as H.
  unfold sample_zarr_open at 2 in H. eexists _, _. exact H.
Defined.

(** C4. On the time axis [7, 5], which the provider returns in descending
    order, the time selection keeps one sample, the value 5 at the last
    position, and not the maximum 7 of the axis: the sample kept is not
    the most recent one. *)
Theorem latest_is_not_maximum :
  exists ds',
    select_latest (sample_dataset [7; 5]%Q) = Ok ds' ∧
    attr_values ds' "time" = Ok [Some 5%Q] ∧
    ¬ selects_maximum [Some 7%Q; Some 5%Q] [Some 5%Q].
Proof.
  destruct (select_latest_spec (sample_dataset [7; 5]%Q)
              (vector "time" datetime64 [7; 5]%Q) [Some 7%Q; Some 5%Q]
              (Some 5%Q) eq_refl eq_refl eq_refl eq_refl)
    as (ds' & Hsel & _ & _ & Ht & _).
  { by apply (bool_decide_unpack _); vm_compute. }
  exists ds'. split; [exact Hsel|]. split; [exact Ht|].
  intros (m & [= <-] & _ & Hmax).
  specialize (Hmax 7%Q ltac:(apply list_elem_of_here)).
  apply Qle_bool_iff in Hmax. discriminate Hmax.
Qed.

(** C5, counterexample. The grid of 3 by 7 cells is coarsened to 1 by 2
    cells; the chunk tuple recorded for [uo] is (1, 1, 170, 240), beyond
    the extent of the array along latitude and longitude. *)
Lemma encoded_chunks_exceed_extent :
  exists ds a enc,
    prepare (sample_open_dataset [5; 7]%Q) exact_mean quarter_floor = Ok ds ∧
    variables ds !! "uo" = Some a ∧
    shape a = [1; 1; 1; 2]%nat ∧
    build_encoding ds ∅ encoded_names !! "uo" = Some enc ∧
    enc_chunks enc = Some [1; 1; 170; 240]%nat ∧
    clipped_chunks a = [1; 1; 1; 2]%nat ∧
    enc_chunks enc ≠ Some (clipped_chunks a).
Proof.
  set (layout := λ r : result Dataset,
         match r with
         | Ok ds => (λ a, (dims a, shape a)) <$> variables ds !! "uo"
         | Raise _ => None
         end).
  assert (Hl : layout (prepare (sample_open_dataset [5; 7]%Q) exact_mean
                          quarter_floor) =
               Some (["time"; "depth"; "latitude"; "longitude"],
                     [1; 1; 1; 2]%nat)) by (vm_compute; reflexivity).
  destruct (prepare (sample_open_dataset [5; 7]%Q) exact_mean quarter_floor)
    as [ds|e]; [|discriminate Hl].
  unfold layout in Hl.
  destruct (variables ds !! "uo") as [a|] eqn:Ha; [|discriminate Hl].
  injection Hl as Hd Hs.
  assert (Hc : encoded_chunks a = [1; 1; 170; 240]%nat).
  { unfold encoded_chunks. rewrite Hd, Hs. reflexivity. }
  assert (Hk : clipped_chunks a = [1; 1; 1; 2]%nat).
  { unfold clipped_chunks. rewrite Hd, Hs. reflexivity. }
  eexists ds, a, _. split; [reflexivity|]. split; [exact Ha|].
  split; [exact Hs|]. split.
  { rewrite build_encoding_lookup, Ha. reflexivity. }
  simpl. rewrite Hc, Hk. split; [reflexivity|]. split; [reflexivity|].
  discriminate.
Qed.

(** The chunk tuple of [uo] in the sample dataset, and the block shape of
    its in-memory re-chunking. *)
Lemma encoding_chunks_are_configured_witness :
  exists enc,
    build_encoding (sample_dataset [5; 7]%Q) ∅ encoded_names !! "uo" = Some enc ∧
    enc_chunks enc = Some [1; 1; 170; 240]%nat.
Proof.
  destruct (encoding_chunks_are_configured (sample_dataset [5; 7]%Q) "uo"
              (field float64 3 7 [grid_3x7'; grid_3x7]) eq_refl)
    as (enc & Hl & _ & Hv & _).
  { by apply (bool_decide_unpack _); vm_compute. }
  exists enc. split; [exact Hl|].
  destruct Hv as [Hc _]; [by apply (bool_decide_unpack _); vm_compute|].
  exact Hc.
Defined.

(** C6, counterexample. A row of three cells over latitude and longitude
    has a latitude axis of length 1, which the factor 3 coarsens to
    length 0: no cell is left, where the claim has the single cell 2. *)
Lemma row_1x3_yields_no_cell :
  exists ds' a',
    coarsen_mean exact_mean (spatial_windows coarsen_factor) row_dataset
    = Ok ds' ∧
    variables ds' !! "uo" = Some a' ∧
    shape a' = [0; 1]%nat ∧
    cells_of 2 (data a') = [] ∧
    cells_of 2 (data a') ≠ [Some 2%Q].
Proof.
  eexists _, (coarsen_reduce exact_mean (spatial_windows coarsen_factor)
                row_1x3).
  split.
  { apply coarsen_mean_returns.
    - unfold coarsen_factor. lia.
    - apply (has_dim_intro _ "latitude" _ (vector "latitude" float64 [10]%Q));
        [reflexivity|apply list_elem_of_here].
    - apply (has_dim_intro _ "longitude" _
               (vector "longitude" float64 [0; 1; 2]%Q));
        [reflexivity|apply list_elem_of_here]. }
  split; [reflexivity|]. split; [reflexivity|]. split; [reflexivity|].
  discriminate.
Qed.

(** The row of three cells over depth and longitude is coarsened along
    longitude only, to a single cell: the mean reduction of the three
    cells of the row. *)
Lemma coarsen_block_mean_witness :
  exists ds' a',
    coarsen_mean exact_mean (spatial_windows coarsen_factor) depth_row_dataset
    = Ok ds' ∧
    variables ds' !! "uo" = Some a' ∧
    shape a' = [1; 1]%nat ∧
    nd_at [0; 0]%nat (data a') =
      Some (exact_mean [Some 1%Q; Some 2%Q; Some 3%Q]).
Proof.
  assert (Hk : (0 < coarsen_factor)%nat) by (unfold coarsen_factor; lia).
  assert (Hlat : has_dim depth_row_dataset "latitude").
  { apply (has_dim_intro _ "latitude" _
             (vector "latitude" float64 [10; 11; 12]%Q));
      [reflexivity|apply list_elem_of_here]. }
  assert (Hlon : has_dim depth_row_dataset "longitude").
  { apply (has_dim_intro _ "longitude" _
             (vector "longitude" float64 [0; 1; 2]%Q));
      [reflexivity|apply list_elem_of_here]. }
  destruct (coarsen_block_mean exact_mean coarsen_factor depth_row_dataset
              Hk Hlat Hlon) as (ds' & Hc & Hall).
  destruct (Hall "uo" depth_row_1x3 eq_refl) as (a' & Ha' & _ & _ & _ & Hmean).
  { split; [reflexivity|]. simpl. eexists. split; [reflexivity|].
    split; [reflexivity|]. repeat constructor.
    eexists. split; [reflexivity|]. split; [reflexivity|].
    repeat constructor; by eexists. }
  assert (Hlook : variables ds' !! "uo" =
                  Some {| dims := ["depth"; "longitude"]; shape := [1; 1]%nat;
                          dtype_of := float64; data := matrix [[2%Q]] |}).
  { rewrite (coarsen_mean_returns _ _ _ Hk Hlat Hlon) in Hc.
    injection Hc as <-. vm_compute. reflexivity. }
  rewrite Hlook in Ha'. injection Ha' as <-.
  destruct Hmean as [_ Hmean];
    [right; apply list_elem_of_further, list_elem_of_here|].
  destruct (Hmean [0; 0]%nat) as (positions & cells & Hpos & _ & _ & _ &
                                   Hcells & Hat).
  { repeat constructor. }
  eexists ds', _. split; [exact Hc|]. split; [exact Hlook|].
  split; [reflexivity|].
  change (block (spatial_windows coarsen_factor) (dims depth_row_1x3)
            [0; 0]%nat)
    with [[0; 0]; [0; 1]; [0; 2]]%nat in Hpos. subst positions.
  repeat (apply Forall2_cons_inv_l in Hcells
            as (? & ? & [_ [= <-]] & Hcells & ->)).
  apply Forall2_nil_inv_l in Hcells as ->. exact Hat.
Defined.

(** C8. The provider returns, besides the requested variables and the
    four axis coordinates, the coordinate [cell_area] of type float64 over
    latitude and longitude. The dataset that is written holds it as a
    coordinate of type float64: the cast stage casts [uo], [vo],
    [latitude], [longitude] and [depth] only, so that a coordinate other
    than time is left at double precision. *)
Theorem extra_coordinate_stays_float64 (block_mean : list cell -> cell)
    (to_float32 : Q -> Q) :
  exists ds a,
    prepare (area_open_dataset [5; 7]%Q) block_mean to_float32 = Ok ds ∧
    "cell_area" ∈ coord_names ds ∧
    variables ds !! "cell_area" = Some a ∧
    dims a = ["latitude"; "longitude"] ∧
    shape a = [1; 2]%nat ∧
    dtype_of a = float64.
Proof.
  set (layout := λ r : result Dataset,
         match r with
         | Ok ds =>
             (λ a, (bool_decide ("cell_area" ∈ coord_names ds),
                    dims a, shape a, dtype_of a))
               <$> variables ds !! "cell_area"
         | Raise _ => None
         end).
  assert (Hl : layout (prepare (area_open_dataset [5; 7]%Q) block_mean
                          to_float32) =
               Some (true, ["latitude"; "longitude"], [1; 2]%nat, float64))
    by (vm_compute; reflexivity).
  destruct (prepare (area_open_dataset [5; 7]%Q) block_mean to_float32)
    as [ds|e]; [|discriminate Hl].
  unfold layout in Hl.
  destruct (variables ds !! "cell_area") as [a|] eqn:Ha; [|discriminate Hl].
  injection Hl as Hc Hd Hs Ht.
  exists ds, a. split; [reflexivity|].
  split; [by apply bool_decide_eq_true in Hc|]. done.
Qed.

(** * Further properties of build_catalog.py *)

Section CatalogFurther.

Import build_catalog.

Variable describe : string -> result Catalogue.

(** *** The entry that is emitted *)

(** [build_entry] for a target whose preferred service is found in the
    zarr format with at least one variable: the entry, or the exception of
    the loop over the coordinates. *)
Lemma build_entry_at_service (t : Target) cat prod part svc ref_var vars :
  describe (dataset_id t) = Ok cat ->
  delivery_part cat = Some (prod, part) ->
  find_service (preferred_service t) (services part) = Some svc ->
  service_format svc = Some "zarr" ->
  variables svc = ref_var :: vars ->
  build_entry describe t =
    dimensions ← build_dimensions ∅ (coordinates ref_var);
    Ok (Some {| e_id := dataset_id t;
                e_product := product_id prod;
                e_label := label t;
                e_zarr_url := uri svc;
                e_variables :=
                  build_variables (target_variables t) ∅ (variables svc);
                e_dimensions := dimensions |}).
Proof.
  intros Hd Hp Hs Hf Hv.
  rewrite (build_entry_at_part _ _ _ _ _ Hd Hp), Hs.
  destruct (decide (service_format svc = Some "zarr")); [|done].
  by rewrite Hv.
Qed.

(** Where an emitted entry comes from. *)
Lemma build_entry_origin (t : Target) cat e :
  describe (dataset_id t) = Ok cat ->
  build_entry describe t = Ok (Some e) ->
  exists prod part svc,
    delivery_part cat = Some (prod, part) ∧
    find_service (preferred_service t) (services part) = Some svc ∧
    service_name svc = preferred_service t ∧
    service_format svc = Some "zarr" ∧
    variables svc ≠ [] ∧
    e_id e = dataset_id t ∧ e_label e = label t ∧
    e_product e = product_id prod ∧ e_zarr_url e = uri svc.
Proof.
  intros Hd He.
  destruct (delivery_part cat) as [[prod part]|] eqn:Hp.
  2:{ exfalso. unfold build_entry in He. rewrite (bind_Ok _ _ _ Hd) in He.
      unfold delivery_part in Hp.
      destruct (products cat) as [|p ps]; [done|]. simpl in He, Hp.
      destruct (datasets p) as [|d dss]; [done|]. simpl in He, Hp.
      destruct (versions d) as [|v vs]; [done|]. simpl in He, Hp.
      destruct (parts v) as [|pt pts]; [done|]. done. }
  rewrite (build_entry_at_part _ _ _ _ _ Hd Hp) in He.
  destruct (find_service _ _) as [svc|] eqn:Hs; [|done].
  destruct (decide (service_format svc = Some "zarr")) as [Hf|]; [|done].
  destruct (variables svc) as [|ref_var vars] eqn:Hv; [done|]. simpl in He.
  destruct (build_dimensions ∅ (coordinates ref_var)) as [dims|]; [|done].
  injection He as <-. exists prod, part, svc. simpl.
  split; [done|]. split; [done|]. split; [|by rewrite Hv].
  clear -Hs. induction (services part) as [|s l IH]; [done|].
  simpl in Hs. destruct (decide (service_name s = preferred_service t));
    [by injection Hs as <-|by apply IH].
Qed.

(** X2. An entry is emitted only for a service that carries the preferred
    name, is in the zarr format and reports a variable; the entry records
    the target's identifier and label, the identifier of the first
    product and the URI of that service. *)
Theorem build_entry_records_service (t : Target) cat e :
  describe (dataset_id t) = Ok cat ->
  build_entry describe t = Ok (Some e) ->
  exists prod part svc,
    delivery_part cat = Some (prod, part) ∧
    find_service (preferred_service t) (services part) = Some svc ∧
    service_name svc = preferred_service t ∧
    service_format svc = Some "zarr" ∧
    variables svc ≠ [] ∧
    e_id e = dataset_id t ∧ e_label e = label t ∧
    e_product e = product_id prod ∧ e_zarr_url e = uri svc.
Proof. apply build_entry_origin. Qed.

(** X8. The service [build_entry] uses is the first one of the delivery
    part with the preferred name: services of that name further down the
    list are never looked at. *)
Theorem find_service_is_first_match (name : string) (l : list Service) s :
  find_service name l = Some s <->
  exists i,
    l !! i = Some s ∧ service_name s = name ∧
    ∀ j s', (j < i)%nat -> l !! j = Some s' -> service_name s' ≠ name.
Proof.
  induction l as [|s0 l IH]; simpl.
  { split; [done|]. by intros (i & Hi & _). }
  destruct (decide (service_name s0 = name)) as [Heq|Hne].
  - split.
    + intros [= <-]. exists 0%nat. split; [done|]. split; [done|]. lia.
    + intros ([|i] & Hi & Hn & Hfirst).
      * by injection Hi as <-.
      * destruct (Hfirst 0%nat s0); [lia|done|done].
  - rewrite IH. split.
    + intros (i & Hi & Hn & Hfirst). exists (S i). split; [done|].
      split; [done|]. intros [|j] s' Hj Hs'.
      * by injection Hs' as <-.
      * apply (Hfirst j); [lia|done].
    + intros ([|i] & Hi & Hn & Hfirst).
      * injection Hi as <-. done.
      * exists i. split; [done|]. split; [done|].
        intros j s' Hj Hs'. apply (Hfirst (S j)); [lia|done].
Qed.

(** *** The variables of the entry *)

Lemma build_variables_lookup (wanted : list string) (vs : list Variable_) :
  ∀ (acc : gmap string VariableInfo) (n : string),
    build_variables wanted acc vs !! n =
      match last (filter (λ v, short_name v = n) vs) with
      | Some v =>
          if decide (n ∈ wanted)
          then Some {| vi_standard_name := standard_name v;
                       vi_units := units v |}
          else acc !! n
      | None => acc !! n
      end.
Proof.
  induction vs as [|v vs IH]; intros acc n; [done|].
  cbn [build_variables]. rewrite IH, filter_cons.
  destruct (decide (short_name v = n)) as [Heq|Hne].
  - rewrite last_cons.
    destruct (last (filter (λ v0, short_name v0 = n) vs)) as [v'|].
    + destruct (decide (n ∈ wanted)) as [Hin|Hnin]; [done|].
      rewrite Heq. by destruct (decide (n ∈ wanted)).
    + rewrite Heq. destruct (decide (n ∈ wanted)); [|done].
      by rewrite lookup_insert_eq.
  - assert (Hacc : (if decide (short_name v ∈ wanted)
                    then <[short_name v :=
                             {| vi_standard_name := standard_name v;
                                vi_units := units v |}]> acc
                    else acc) !! n = acc !! n).
    { destruct (decide _); [by apply lookup_insert_ne|done]. }
    by rewrite Hacc.
Qed.

(** X1. The variables of an emitted entry are the requested short names
    that the service reports: a requested name that is not reported and a
    reported name that is not requested are both absent, without an
    error. When the service reports a short name twice, the entry keeps
    the standard name and the units of the last report. *)
Theorem build_entry_variables (t : Target) cat e :
  describe (dataset_id t) = Ok cat ->
  build_entry describe t = Ok (Some e) ->
  exists prod part svc,
    delivery_part cat = Some (prod, part) ∧
    find_service (preferred_service t) (services part) = Some svc ∧
    ∀ n,
      e_variables e !! n =
        if decide (n ∈ target_variables t) then
          (λ v, {| vi_standard_name := standard_name v;
                   vi_units := units v |})
            <$> last (filter (λ v, short_name v = n) (variables svc))
        else None.
Proof.
  intros Hd He.
  destruct (build_entry_origin t cat e Hd He)
    as (prod & part & svc & Hp & Hs & _ & Hf & Hv & _).
  exists prod, part, svc. split; [done|]. split; [done|].
  destruct (variables svc) as [|ref_var vars] eqn:Hvs; [done|].
  rewrite (build_entry_at_service t _ _ _ _ _ _ Hd Hp Hs Hf Hvs) in He.
  destruct (build_dimensions ∅ (coordinates ref_var)) as [dims|]; [|done].
  injection He as <-. intros n. cbn [e_variables].
  rewrite build_variables_lookup, lookup_empty, Hvs.
  destruct (last _); destruct (decide _); done.
Qed.

(** *** The dimensions of the entry *)

Lemma build_dimensions_dom (cs : list Coordinate) :
  ∀ acc dims,
    build_dimensions acc cs = Ok dims ->
    dom dims = dom acc ∪ list_to_set (coordinate_id <$> cs).
Proof.
  induction cs as [|c cs IH]; intros acc dims; simpl.
  { intros [= ->]. by rewrite union_empty_r_L. }
  destruct (build_dim c) as [d|]; [|done].
  change (Ok d ≫= _) with (build_dimensions (<[coordinate_id c := d]> acc) cs).
  intros Hb. rewrite (IH _ _ Hb), dom_insert_L.
  rewrite (comm_L (∪) {[coordinate_id c]} (dom acc)).
  by rewrite <- (assoc_L (∪)).
Qed.

Lemma build_dimensions_ok (cs : list Coordinate) :
  ∀ acc dims,
    build_dimensions acc cs = Ok dims -> Forall (λ c, range_ok c = true) cs.
Proof.
  induction cs as [|c cs IH]; intros acc dims; simpl; [by constructor|].
  destruct (build_dim c) as [d|] eqn:Hd; [|done].
  change (Ok d ≫= _) with (build_dimensions (<[coordinate_id c := d]> acc) cs).
  intros Hb. constructor; [|by eapply IH].
  apply build_dim_returns. by exists d.
Qed.

Lemma build_dimensions_raises (before : list Coordinate) c after e :
  Forall (λ c, range_ok c = true) before ->
  build_dim c = Raise e ->
  ∀ acc, build_dimensions acc (before ++ c :: after) = Raise e.
Proof.
  intros Hb Hc. induction Hb as [|b bs Hok _ IH]; intros acc; simpl.
  { by rewrite Hc. }
  apply build_dim_returns in Hok as [d Hd]. rewrite Hd. apply IH.
Qed.

(** X3. The dimensions of an emitted entry are keyed by the coordinate
    identifiers of the representative (first) variable of the service,
    and by nothing else. *)
Theorem build_entry_dimension_keys (t : Target) cat prod part svc ref_var
    vars e :
  describe (dataset_id t) = Ok cat ->
  delivery_part cat = Some (prod, part) ->
  find_service (preferred_service t) (services part) = Some svc ->
  service_format svc = Some "zarr" ->
  variables svc = ref_var :: vars ->
  build_entry describe t = Ok (Some e) ->
  dom (e_dimensions e) = list_to_set (coordinate_id <$> coordinates ref_var).
Proof.
  intros Hd Hp Hs Hf Hv He.
  rewrite (build_entry_at_service t _ _ _ _ _ _ Hd Hp Hs Hf Hv) in He.
  destruct (build_dimensions ∅ (coordinates ref_var)) as [dims|] eqn:Hdims;
    [|done].
  injection He as <-. cbn [e_dimensions].
  rewrite (build_dimensions_dom _ _ _ Hdims), dom_empty_L.
  by rewrite union_empty_l_L.
Qed.

(** X5. For a target whose preferred zarr service reports a variable,
    [build_entry] emits an entry exactly when the descriptor of every
    coordinate of the first variable can be computed; otherwise it raises
    and emits nothing, not even the absent entry. *)
Theorem build_entry_emits_iff (t : Target) cat prod part svc ref_var vars :
  describe (dataset_id t) = Ok cat ->
  delivery_part cat = Some (prod, part) ->
  find_service (preferred_service t) (services part) = Some svc ->
  service_format svc = Some "zarr" ->
  variables svc = ref_var :: vars ->
  ((exists e, build_entry describe t = Ok (Some e)) <->
   Forall (λ c, range_ok c = true) (coordinates ref_var)) ∧
  (¬ Forall (λ c, range_ok c = true) (coordinates ref_var) ->
   exists err, build_entry describe t = Raise err).
Proof.
  intros Hd Hp Hs Hf Hv.
  rewrite (build_entry_at_service t _ _ _ _ _ _ Hd Hp Hs Hf Hv).
  destruct (build_dimensions ∅ (coordinates ref_var)) as [dims|err] eqn:Hdims.
  - apply build_dimensions_ok in Hdims. split; [|done].
    split; [done|]. intros _. by eexists.
  - split; [|by eexists]. split; [by intros [e [=]]|].
    intros Hok.
    destruct (build_dimensions_returns _ Hok ∅) as [dims' Hdims'].
    congruence.
Qed.

(** *** The fields of a descriptor *)

#[local] Set Warnings "-clear-no-such-hyp".

Lemma dom_set_if_some {A : Type} (k : string) (f : A -> pyval)
    (x : option A) (d : gmap string pyval) :
  dom (set_if_some k f x d) ⊆ {[k]} ∪ dom d.
Proof.
  destruct x as [a|]; simpl.
  - rewrite dom_insert_L. done.
  - apply union_subseteq_r.
Qed.

Lemma build_dim_fields (c : Coordinate) dim :
  build_dim c = Ok dim ->
  dim !! "axis" = Some (PyStr (axis c)) ∧
  is_Some (dim !! "size") ∧
  dim !! "chunk_size" = PyFloat <$> chunking_length c ∧
  dim !! "units" = PyStr <$> unit_truthy (coordinate_unit c) ∧
  dom dim ⊆ {[ "axis"; "values"; "size"; "min"; "max"; "step";
               "chunk_size"; "units" ]}.
Proof.
  unfold build_dim. intros Hdim.
  assert (Hinner : exists inner : gmap string pyval,
            dim = set_if_some "units" PyStr (unit_truthy (coordinate_unit c))
                    (set_if_some "chunk_size" PyFloat (chunking_length c)
                       inner) ∧
            inner !! "axis" = Some (PyStr (axis c)) ∧
            is_Some (inner !! "size") ∧
            inner !! "chunk_size" = None ∧ inner !! "units" = None ∧
            dom inner ⊆ {[ "axis"; "values"; "size"; "min"; "max"; "step" ]}).
  { destruct (values c) as [vs|].
    - injection Hdim as <-. eexists. split; [done|].
      split; [by simplify_map_eq|]. split; [by simplify_map_eq|].
      split; [by simplify_map_eq|]. split; [by simplify_map_eq|].
      rewrite !dom_insert_L, dom_singleton_L. set_solver.
    - destruct (range_size c) as [sz|]; [|done]. injection Hdim as <-.
      eexists. split; [done|].
      rewrite !lookup_set_if_some_ne by done.
      split; [by simplify_map_eq|]. split; [by simplify_map_eq|].
      split; [by simplify_map_eq|]. split; [by simplify_map_eq|].
      etrans; [apply dom_set_if_some|].
      apply union_least; [set_solver|].
      etrans; [apply dom_set_if_some|].
      apply union_least; [set_solver|].
      etrans; [apply dom_set_if_some|].
      apply union_least; [set_solver|].
      rewrite dom_insert_L, dom_singleton_L. set_solver. }
  destruct Hinner as (inner & -> & Hax & Hsz & Hck & Hun & Hdom).
  split; [by rewrite !lookup_set_if_some_ne|].
  split; [by rewrite !lookup_set_if_some_ne|].
  split.
  { rewrite lookup_set_if_some_ne by done. by apply lookup_set_if_some_eq. }
  split.
  { apply lookup_set_if_some_eq. by rewrite lookup_set_if_some_ne. }
  etrans; [apply dom_set_if_some|].
  apply union_least; [set_solver|].
  etrans; [apply dom_set_if_some|].
  apply union_least; [set_solver|].
  etrans; [exact Hdom|]. set_solver.
Qed.

(** X4. Every dimension descriptor of an emitted entry has the axis role
    of its coordinate and a size (possibly null); it carries the
    provider's chunking length when one is reported, and the unit when it
    is reported and not the empty string; it has no key outside axis,
    values, size, min, max, step, chunk_size and units. *)
Theorem build_entry_descriptor_fields (t : Target) cat prod part svc ref_var
    vars e :
  describe (dataset_id t) = Ok cat ->
  delivery_part cat = Some (prod, part) ->
  find_service (preferred_service t) (services part) = Some svc ->
  service_format svc = Some "zarr" ->
  variables svc = ref_var :: vars ->
  build_entry describe t = Ok (Some e) ->
  ∀ k dim, e_dimensions e !! k = Some dim ->
    exists c,
      c ∈ coordinates ref_var ∧ coordinate_id c = k ∧
      dim !! "axis" = Some (PyStr (axis c)) ∧
      is_Some (dim !! "size") ∧
      dim !! "chunk_size" = PyFloat <$> chunking_length c ∧
      dim !! "units" =
        match coordinate_unit c with
        | Some u => if decide (u = "") then None else Some (PyStr u)
        | None => None
        end ∧
      dom dim ⊆ {[ "axis"; "values"; "size"; "min"; "max"; "step";
                   "chunk_size"; "units" ]}.
Proof.
  intros Hd Hp Hs Hf Hv He k dim Hk.
  rewrite (build_entry_at_service t _ _ _ _ _ _ Hd Hp Hs Hf Hv) in He.
  destruct (build_dimensions ∅ (coordinates ref_var)) as [dims|] eqn:Hdims;
    [|done].
  injection He as <-. cbn [e_dimensions] in Hk.
  destruct (build_dimensions_origin _ _ _ _ _ Hdims Hk)
    as [Hacc|(c & Hc & Hid & Hdim)]; [by rewrite lookup_empty in Hacc|].
  exists c. split; [done|]. split; [done|].
  destruct (build_dim_fields _ _ Hdim) as (H1 & H2 & H3 & H4 & H5).
  split; [done|]. split; [done|]. split; [done|]. split; [|done].
  rewrite H4. unfold unit_truthy.
  destruct (coordinate_unit c) as [u|]; [|done]. by destruct (decide _).
Qed.

(** *** Exceptions of the size formula *)

Lemma build_dim_missing_bound (c : Coordinate) st :
  values c = None -> step c = Some st -> float_bool st = true ->
  minimum_value c = None ∨ maximum_value c = None ->
  build_dim c = Raise TypeError.
Proof.
  intros Hv Hs Hb Hm. unfold build_dim, range_size, opt_sub.
  rewrite Hv, Hs, Hb.
  by destruct Hm as [-> | ->]; destruct (maximum_value c), (minimum_value c).
Qed.

(** X6. When a coordinate of the first variable has no explicit values
    and a non-zero step but lacks its minimum or its maximum, the
    subtraction raises [TypeError]: [build_entry] raises it and no entry,
    not even the absent one, is returned. *)
Theorem build_entry_missing_bound (t : Target) cat prod part svc ref_var vars
    before c after st :
  describe (dataset_id t) = Ok cat ->
  delivery_part cat = Some (prod, part) ->
  find_service (preferred_service t) (services part) = Some svc ->
  service_format svc = Some "zarr" ->
  variables svc = ref_var :: vars ->
  coordinates ref_var = before ++ c :: after ->
  Forall (λ c, range_ok c = true) before ->
  values c = None -> step c = Some st -> float_bool st = true ->
  minimum_value c = None ∨ maximum_value c = None ->
  build_entry describe t = Raise TypeError.
Proof.
  intros Hd Hp Hs Hf Hv Hcs Hb Hvals Hst Hbool Hm.
  rewrite (build_entry_at_service t _ _ _ _ _ _ Hd Hp Hs Hf Hv), Hcs.
  by rewrite (build_dimensions_raises _ _ _ _ Hb
                (build_dim_missing_bound _ _ Hvals Hst Hbool Hm)).
Qed.

(** X7. The size the code computes for a regular axis is the floor
    formula or one more: [int] and [floor] differ by at most one, and
    only on a negative quotient. *)
Theorem range_size_within_one_of_floor (c : Coordinate) dim st :
  build_dim c = Ok dim ->
  values c = None -> step c = Some st -> float_bool st = true ->
  exists lo hi n f,
    minimum_value c = Some lo ∧ maximum_value c = Some hi ∧
    dim !! "size" = Some (PyInt n) ∧
    float_floor (SFdiv prec emax (float_sub hi lo) st) = Ok f ∧
    f + 1 <= n <= f + 2.
Proof.
  intros Hdim Hv Hst Hb.
  destruct (build_dim_range _ _ Hv Hdim) as (sz & Hsz & Hsize & _).
  apply range_size_cases in Hsz. rewrite Hst, Hb in Hsz.
  destruct Hsz as (lo & hi & n & Hlo & Hhi & Hn & ->).
  assert (Hf : exists f, float_floor (SFdiv prec emax (float_sub hi lo) st)
                         = Ok f).
  { destruct (SFdiv prec emax (float_sub hi lo) st); try discriminate Hn;
      by eexists. }
  destruct Hf as [f Hf]. exists lo, hi, (n + 1), f.
  split; [done|]. split; [done|]. split; [done|]. split; [done|].
  pose proof (float_int_floor_bounds _ _ _ Hn Hf). lia.
Qed.

(** *** The catalog *)

Lemma build_entry_id (t : Target) e :
  build_entry describe t = Ok (Some e) -> e_id e = dataset_id t.
Proof.
  intros He. destruct (describe (dataset_id t)) as [cat|] eqn:Hd.
  - by destruct (build_entry_origin t cat e Hd He)
      as (_ & _ & _ & _ & _ & _ & _ & _ & Hid & _).
  - unfold build_entry in He. by rewrite Hd in He.
Qed.

(** X9. When no target raises, [build_catalog] returns the catalog stamped
    with the given time whose datasets are the entries of the targets that
    are not absent, in the order of the targets: their identifiers form a
    sublist of the targets' identifiers, and an empty list of targets
    gives an empty catalog. *)
Theorem build_catalog_keeps_order (targets : list Target)
    (rs : list (option Entry)) (now : string) :
  Forall2 (λ t r, build_entry describe t = Ok r) targets rs ->
  exists c,
    build_catalog describe targets now = Ok c ∧
    generated c = now ∧
    catalog_datasets c = omap id rs ∧
    e_id <$> catalog_datasets c `sublist_of` dataset_id <$> targets ∧
    (targets = [] -> catalog_datasets c = []).
Proof.
  intros Hall. eexists. split.
  { unfold build_catalog. by rewrite (collect_entries_all _ _ _ [] Hall). }
  simpl. split; [done|]. split; [done|]. split.
  - induction Hall as [|t r ts rs' Hr _ IH]; [constructor|].
    destruct r as [e|]; csimpl.
    + rewrite (build_entry_id _ _ Hr). by constructor.
    + by constructor.
  - intros ->. by apply Forall2_nil_inv_l in Hall as ->.
Qed.


(** X19. When the first variable reports several coordinates under one
    identifier, the entry holds a single descriptor for it, the one of the
    last such coordinate. *)
Theorem build_entry_last_coordinate_wins (t : Target) cat prod part svc
    ref_var vars e i c :
  describe (dataset_id t) = Ok cat ->
  delivery_part cat = Some (prod, part) ->
  find_service (preferred_service t) (services part) = Some svc ->
  service_format svc = Some "zarr" ->
  variables svc = ref_var :: vars ->
  build_entry describe t = Ok (Some e) ->
  last_with_id (coordinates ref_var) i c ->
  exists dim,
    build_dim c = Ok dim ∧ e_dimensions e !! coordinate_id c = Some dim.
Proof.
  intros Hd Hp Hs Hf Hv He Hl.
  rewrite (build_entry_at_service t _ _ _ _ _ _ Hd Hp Hs Hf Hv) in He.
  destruct (build_dimensions ∅ (coordinates ref_var)) as [dims|] eqn:Hdims;
    [|done].
  injection He as <-. cbn [e_dimensions].
  exact (build_dimensions_lookup _ _ _ _ _ Hdims Hl).
Qed.

End CatalogFurther.

(** *** The further properties at sample metadata *)

Section CatalogFurtherExamples.

Import build_catalog.

Lemma regular_entry :
  exists e, build_entry sample_describe (sample_target "regular") = Ok (Some e).
Proof.
  destruct (build_entry_dimensions sample_describe (sample_target "regular")
              _ _ _ _ _ _ eq_refl eq_refl eq_refl eq_refl eq_refl
              regular_coordinates_ok) as (e & He & _).
  by exists e.
Qed.

Lemma irregular_entry :
  exists e,
    build_entry sample_describe (sample_target "irregular") = Ok (Some e).
Proof.
  destruct (build_entry_dimensions sample_describe (sample_target "irregular")
              _ _ _ _ _ _ eq_refl eq_refl eq_refl eq_refl eq_refl
              irregular_coordinates_ok) as (e & He & _).
  by exists e.
Qed.

Lemma build_entry_records_service_witness :
  exists e,
    build_entry sample_describe (sample_target "regular") = Ok (Some e) ∧
    e_id e = "regular" ∧
    e_product e = "GLOBAL_ANALYSISFORECAST_PHY_001_024" ∧
    e_zarr_url e = "https://example.org/arco-geo-series".
Proof.
  destruct regular_entry as [e He]. exists e. split; [exact He|].
  destruct (build_entry_records_service sample_describe
              (sample_target "regular") _ e eq_refl He)
    as (prod & part & svc & Hp & Hs & _ & _ & _ & Hid & _ & Hprod & Huri).
  vm_compute in Hp. injection Hp as <- <-.
  vm_compute in Hs. injection Hs as <-.
  split; [exact Hid|]. split; [exact Hprod|]. rewrite Huri.
  vm_compute. reflexivity.
Defined.

Lemma build_entry_variables_witness :
  exists e,
    build_entry sample_describe (sample_target "regular") = Ok (Some e) ∧
    e_variables e !! "uo" =
      Some {| vi_standard_name := Some "eastward_sea_water_velocity";
              vi_units := Some "m s-1" |} ∧
    e_variables e !! "vo" = None ∧
    e_variables e !! "thetao" = None.
Proof.
  destruct regular_entry as [e He]. exists e. split; [exact He|].
  destruct (build_entry_variables sample_describe (sample_target "regular")
              _ e eq_refl He) as (prod & part & svc & Hp & Hs & Hvars).
  vm_compute in Hp. injection Hp as <- <-.
  vm_compute in Hs. injection Hs as <-.
  rewrite !Hvars. repeat split; vm_compute; reflexivity.
Defined.

Lemma build_entry_dimension_keys_witness :
  exists e,
    build_entry sample_describe (sample_target "regular") = Ok (Some e) ∧
    dom (e_dimensions e) = list_to_set ["longitude"; "depth"].
Proof.
  destruct regular_entry as [e He]. exists e. split; [exact He|].
  exact (build_entry_dimension_keys sample_describe (sample_target "regular")
           _ _ _ _ _ _ e eq_refl eq_refl eq_refl eq_refl eq_refl He).
Defined.

Lemma build_entry_emits_iff_witness :
  exists e, build_entry sample_describe (sample_target "regular") = Ok (Some e).
Proof.
  destruct (build_entry_emits_iff sample_describe (sample_target "regular")
              _ _ _ _ _ _ eq_refl eq_refl eq_refl eq_refl eq_refl)
    as [[_ H] _].
  exact (H regular_coordinates_ok).
Defined.

Lemma build_entry_descriptor_fields_witness :
  exists e,
    build_entry sample_describe (sample_target "regular") = Ok (Some e) ∧
    ∀ k dim, e_dimensions e !! k = Some dim ->
      is_Some (dim !! "axis") ∧ is_Some (dim !! "size").
Proof.
  destruct regular_entry as [e He]. exists e. split; [exact He|].
  intros k dim Hk.
  destruct (build_entry_descriptor_fields sample_describe
              (sample_target "regular") _ _ _ _ _ _ e
              eq_refl eq_refl eq_refl eq_refl eq_refl He k dim Hk)
    as (c & _ & _ & Hax & Hsz & _).
  split; [by eexists|exact Hsz].
Defined.

Lemma build_entry_missing_bound_witness :
  build_entry unbounded_describe (sample_target "any") = Raise TypeError.
Proof.
  apply (build_entry_missing_bound unbounded_describe (sample_target "any")
           _ _ _ _ _ _ [regular_axis] unbounded_axis [explicit_axis]
           (float_of_Z 1) eq_refl eq_refl eq_refl eq_refl eq_refl eq_refl).
  - repeat constructor.
  - reflexivity.
  - reflexivity.
  - reflexivity.
  - by left.
Defined.

Lemma range_size_within_one_of_floor_witness :
  exists dim n,
    build_dim regular_axis = Ok dim ∧
    dim !! "size" = Some (PyInt n) ∧ 6 <= n <= 7.
Proof.
  destruct (proj1 (build_dim_returns regular_axis) eq_refl) as [dim Hdim].
  destruct (range_size_within_one_of_floor regular_axis dim (float_of_Z 2)
              Hdim eq_refl eq_refl eq_refl)
    as (lo & hi & n & f & Hlo & Hhi & Hsize & Hf & Hn).
  injection Hlo as <-. injection Hhi as <-.
  vm_compute in Hf. injection Hf as <-.
  exists dim, n. split; [exact Hdim|]. split; [exact Hsize|]. exact Hn.
Defined.

Lemma build_catalog_keeps_order_witness :
  exists c,
    build_catalog sample_describe
      [sample_target "regular"; sample_target "sqlite-only";
       sample_target "irregular"] sample_now = Ok c ∧
    generated c = sample_now ∧
    e_id <$> catalog_datasets c = ["regular"; "irregular"].
Proof.
  destruct regular_entry as [e1 He1]. destruct irregular_entry as [e3 He3].
  destruct (build_catalog_keeps_order sample_describe
              [sample_target "regular"; sample_target "sqlite-only";
               sample_target "irregular"] [Some e1; None; Some e3] sample_now)
    as (c & Hc & Hg & Hds & _).
  { repeat constructor; [exact He1|exact He3]. }
  exists c. split; [exact Hc|]. split; [exact Hg|]. rewrite Hds. csimpl.
  by rewrite (build_entry_id _ _ _ He1), (build_entry_id _ _ _ He3).
Defined.


Lemma build_entry_last_coordinate_wins_witness :
  exists e dim,
    build_entry duplicate_describe (sample_target "any") = Ok (Some e) ∧
    e_dimensions e !! "depth" = Some dim ∧
    dim !! "size" = Some (PyInt 3).
Proof.
  destruct (build_entry_dimensions duplicate_describe (sample_target "any")
              _ _ _ _ _ _ eq_refl eq_refl eq_refl eq_refl eq_refl)
    as (e & He & _); [repeat constructor|].
  destruct (build_entry_last_coordinate_wins duplicate_describe
              (sample_target "any") _ _ _ _ _ _ e 2%nat explicit_axis
              eq_refl eq_refl eq_refl eq_refl eq_refl He)
    as (dim & Hdim & Hl).
  { split; [reflexivity|]. intros [|[|[|j]]] c' Hj [= <-]; lia || discriminate. }
  exists e, dim. split; [exact He|]. split; [exact Hl|].
  by destruct (build_dim_explicit explicit_axis _ _ eq_refl Hdim) as (_ & H & _).
Defined.

End CatalogFurtherExamples.

(** * Further properties of subset_zarr.py *)

Section TranscoderFurther.

Import subset_zarr.

(** *** The time selection *)

(** X11. The time selection changes nothing but the time axis: a variable
    without a time axis is kept as it is, and a variable with one keeps
    its axes, its type and the length of every other axis. *)
Theorem select_latest_keeps_other_axes (ds : Dataset) tm (ts : list cell) t :
  variables ds !! "time" = Some tm ->
  dims tm = ["time"] ->
  data tm = Axis (Cell <$> ts) ->
  last ts = Some t ->
  NoDup (canon <$> ts) ->
  exists ds',
    select_latest ds = Ok ds' ∧
    dom (variables ds') = dom (variables ds) ∧
    ∀ name a, variables ds !! name = Some a ->
      exists a',
        variables ds' !! name = Some a' ∧
        dims a' = dims a ∧ dtype_of a' = dtype_of a ∧
        ("time" ∉ dims a -> a' = a) ∧
        ∀ i d n, dims a !! i = Some d -> d ≠ "time" ->
                 shape a !! i = Some n -> shape a' !! i = Some n.
Proof.
  intros Htm Hdims Hdata Hlast Hnd.
  destruct (select_latest_spec ds tm ts t Htm Hdims Hdata Hlast Hnd)
    as (ds' & Hsel & Hv & _).
  exists ds'. split; [done|]. split; [by rewrite Hv, dom_fmap_L|].
  intros name a Ha. eexists. split; [by rewrite Hv, lookup_fmap, Ha|].
  split; [apply isel_dims|]. split; [apply isel_dtype|].
  split; [apply isel_other|].
  intros i d n Hd Hne Hn. unfold isel.
  destruct (decide ("time" ∈ dims a)); [|done]. simpl.
  rewrite lookup_zip_with, Hd. simpl. rewrite Hn. simpl.
  by rewrite decide_False.
Qed.

Section Faults.

Variable open_dataset : string -> list string -> Q -> Q -> result Dataset.
Variable block_mean : list cell -> cell.
Variable to_float32 : Q -> Q.
Variable to_zarr : Dataset -> gmap string Encoding -> result (list File).
Variable zarr_open : list File -> result (list string).

(** X10. When the dataset the provider returns has no time variable, or a
    time axis without a value, the run stops at the time selection, with
    [AttributeError] or [IndexError], before any later stage: whatever the
    store writer and reader would do. *)
Theorem latest_time_must_exist (ds : Dataset) :
  open_dataset DATASET_ID VARIABLES 0%Q (1 # 2)%Q = Ok ds ->
  (variables ds !! "time" = None ->
     select_latest ds = Raise (AttributeError "time") ∧
     main open_dataset block_mean to_float32 to_zarr zarr_open
     = Raise (AttributeError "time")) ∧
  (∀ tm, variables ds !! "time" = Some tm -> children (data tm) = [] ->
     select_latest ds = Raise IndexError ∧
     main open_dataset block_mean to_float32 to_zarr zarr_open = Raise IndexError).
Proof.
  intros Hopen. split.
  - intros Hnone.
    assert (Hsel : select_latest ds = Raise (AttributeError "time")).
    { unfold select_latest, attr_values. by rewrite Hnone. }
    split; [done|]. unfold main, prepare.
    by rewrite (bind_Ok _ _ _ Hopen), Hsel.
  - intros tm Htm Hempty.
    assert (Hsel : select_latest ds = Raise IndexError).
    { unfold select_latest, attr_values. by rewrite Htm, Hempty. }
    split; [done|]. unfold main, prepare.
    by rewrite (bind_Ok _ _ _ Hopen), Hsel.
Qed.

End Faults.

(** *** The cast of a dataset that lacks a variable *)

Lemma cast_items_missing (f : Q -> Q) (before : list string) name after :
  ∀ ds,
    (∀ n, n ∈ before -> is_Some (variables ds !! n)) ->
    variables ds !! name = None ->
    cast_items f ds (before ++ name :: after) = Raise (KeyError name).
Proof.
  induction before as [|b before IH]; intros ds Hall Hnone.
  { cbn [app cast_items]. unfold cast_item, getitem. by rewrite Hnone. }
  destruct (Hall b) as [a Ha]; [apply list_elem_of_here|].
  cbn [app cast_items]. unfold cast_item at 1, getitem. rewrite Ha. simpl.
  apply IH.
  - intros n Hn. simpl. destruct (decide (b = n)) as [->|Hne].
    + rewrite lookup_insert_eq. by eexists.
    + rewrite lookup_insert_ne by done. apply Hall.
      by apply list_elem_of_further.
  - simpl. rewrite lookup_insert_ne; [done|]. intros ->. congruence.
Qed.

(** X13. The cast stage reads [uo], [vo], [latitude], [longitude] and
    [depth] in this order; the first of them that the dataset lacks makes
    it raise [KeyError] with that name, and no dataset is returned. *)
Theorem downcast_missing_variable (f : Q -> Q) (ds : Dataset)
    (before : list string) name after :
  downcast_names = before ++ name :: after ->
  (∀ n, n ∈ before -> is_Some (variables ds !! n)) ->
  variables ds !! name = None ->
  downcast f ds = Raise (KeyError name).
Proof.
  intros Hnames Hall Hnone. rewrite downcast_cast_items, Hnames.
  by apply cast_items_missing.
Qed.

(** *** The encoding *)

(** X14. The encoding has an entry exactly for those of the six names
    [uo], [vo], [time], [depth], [latitude], [longitude] that the dataset
    holds; every entry has the zlib compressor of level 5, and a chunk
    tuple exactly when the name is a data variable. A variable of the
    dataset outside the six names gets no entry. *)
Theorem encoding_entries (ds : Dataset) :
  dom (build_encoding ds ∅ encoded_names) =
    expected_names ∩ dom (variables ds) ∧
  ∀ name enc, build_encoding ds ∅ encoded_names !! name = Some enc ->
    enc_compressor enc = Zlib 5 ∧
    (is_Some (enc_chunks enc) <-> name ∈ VARIABLES).
Proof.
  split.
  - apply set_eq. intros name.
    rewrite elem_of_intersection, !elem_of_dom, build_encoding_lookup.
    unfold expected_names. rewrite elem_of_list_to_set, lookup_empty.
    destruct (variables ds !! name) as [a|].
    + destruct (decide (name ∈ encoded_names)).
      * split; [by intros _; split; [|eexists]|by intros _; eexists].
      * split; [by intros [? [=]]|by intros [? _]].
    + split; [by intros [? [=]]|by intros [_ [? [=]]]].
  - intros name enc. rewrite build_encoding_lookup, lookup_empty.
    destruct (variables ds !! name) as [a|]; [|done].
    destruct (decide (name ∈ encoded_names)); [|done].
    intros [= <-]. simpl. split; [done|].
    destruct (decide (name ∈ VARIABLES)).
    + split; [done|by eexists].
    + split; [by intros [? [=]]|done].
Qed.

(** X15. For a data variable over (time, depth, latitude, longitude), in
    this order, the chunk tuple of the encoding is (1, 1, 170, 240)
    whatever the lengths of the four axes are. *)
Theorem encoding_chunks_of_grid (ds : Dataset) (name : string) a
    (nt nd nlat nlon : nat) :
  variables ds !! name = Some a ->
  name ∈ VARIABLES ->
  dims a = ["time"; "depth"; "latitude"; "longitude"] ->
  shape a = [nt; nd; nlat; nlon] ->
  exists enc,
    build_encoding ds ∅ encoded_names !! name = Some enc ∧
    enc_chunks enc = Some [1; 1; 170; 240]%nat.
Proof.
  intros Ha Hin Hd Hs. eexists. split.
  { rewrite build_encoding_lookup, Ha.
    rewrite (decide_True (P := name ∈ encoded_names)); [done|].
    unfold encoded_names. apply elem_of_app. by left. }
  simpl. rewrite decide_True by done.
  unfold encoded_chunks. by rewrite Hd, Hs.
Qed.

(** *** The prepared dataset *)

Section Prepared.

Variable open_dataset : string -> list string -> Q -> Q -> result Dataset.
Variable block_mean : list cell -> cell.
Variable to_float32 : Q -> Q.

(** Every variable of the prepared dataset, from the variable the
    provider returned. *)
Lemma prepare_variables (ds0 : Dataset) :
  open_dataset DATASET_ID VARIABLES 0%Q (1 # 2)%Q = Ok ds0 ->
  provider_contract ds0 ->
  exists ts ds,
    axis_coordinate ds0 "time" ts ∧
    prepare open_dataset block_mean to_float32 = Ok ds ∧
    ∀ name,
      variables ds !! name =
        (λ a0,
           let a2 := coarsen_reduce block_mean
                       (spatial_windows coarsen_factor)
                       (isel "time" (pred (length ts)) a0) in
           if decide (name ∈ downcast_names)
           then astype_float32 to_float32 a2 else a2)
        <$> variables ds0 !! name.
Proof.
  intros Hopen [Hdom Hcoords (ts & Htime & Hts & Hnd) (vd & Hdepth)
                  (vlat & Hlat & Hnlat) (vlon & Hlon & Hnlon)].
  pose proof Htime as (tm & Htm & Htdims & Htdata).
  destruct (last ts) as [t|] eqn:Hlast; [|by apply last_None in Hlast].
  destruct (select_latest_spec ds0 tm ts t Htm Htdims Htdata Hlast Hnd)
    as (ds1 & Hsel & Hv1 & Hc1 & _).
  set (W := spatial_windows coarsen_factor).
  set (ds2 := {| variables := coarsen_reduce block_mean W <$> variables ds1;
                 coord_names := coord_names ds1 |}).
  assert (Hdepth1 : axis_coordinate ds1 "depth" vd)
    by (by eapply axis_coordinate_isel).
  assert (Hlat1 : axis_coordinate ds1 "latitude" vlat)
    by (by eapply axis_coordinate_isel).
  assert (Hlon1 : axis_coordinate ds1 "longitude" vlon)
    by (by eapply axis_coordinate_isel).
  assert (Ht : has_dim ds1 "time").
  { apply (has_dim_intro _ "time" _ (isel "time" (pred (length ts)) tm)).
    - by rewrite Hv1, lookup_fmap, Htm.
    - rewrite isel_dims, Htdims. apply list_elem_of_here. }
  pose proof (axis_coordinate_has_dim _ _ _ Hdepth1) as Hd.
  pose proof (axis_coordinate_has_dim _ _ _ Hlat1) as Hla.
  pose proof (axis_coordinate_has_dim _ _ _ Hlon1) as Hlo.
  assert (Hdim2 : ∀ d, has_dim ds1 d -> has_dim ds2 d).
  { intros d. apply has_dim_preserved. intros name a Ha. eexists. split.
    - simpl. by rewrite lookup_fmap, Ha.
    - apply coarsen_reduce_dims. }
  assert (Hcoarsen : coarsen_mean block_mean W ds1 = Ok ds2).
  { apply coarsen_mean_returns; [unfold coarsen_factor; lia|done|done]. }
  destruct (cast_items_spec to_float32 downcast_names ds2 downcast_names_NoDup)
    as (ds3 & Hcast & Hc3 & Hv3).
  { intros n Hn%downcast_names_expected. rewrite <- Hdom in Hn.
    apply elem_of_dom in Hn as [a Ha]. simpl.
    rewrite lookup_fmap, Hv1, lookup_fmap, Ha. by eexists. }
  rewrite <- downcast_cast_items in Hcast.
  assert (Hdim3 : ∀ d, has_dim ds2 d -> has_dim ds3 d).
  { intros d. apply has_dim_preserved. intros name a Ha. rewrite Hv3, Ha.
    destruct (decide _); eexists; (split; [done|done]). }
  exists ts, ds3. split; [done|]. split.
  { unfold prepare. rewrite (bind_Ok _ _ _ Hopen), (bind_Ok _ _ _ Hsel).
    rewrite (bind_Ok _ _ _ (summary_returns ds1 vd vlat vlon
                              Hdepth1 Hlat1 Hnlat Hlon1 Hnlon)).
    rewrite (bind_Ok _ _ _ Hcoarsen).
    rewrite (bind_Ok _ _ _ (grid_size_returns ds2 (Hdim2 _ Hla) (Hdim2 _ Hlo))).
    rewrite (bind_Ok _ _ _ Hcast).
    rewrite (bind_Ok _ _ _ (chunk_returns ds3
               (Hdim3 _ (Hdim2 _ Ht)) (Hdim3 _ (Hdim2 _ Hd))
               (Hdim3 _ (Hdim2 _ Hla)) (Hdim3 _ (Hdim2 _ Hlo)))).
    done. }
  intros name. rewrite Hv3. cbn [variables ds2].
  rewrite lookup_fmap, Hv1, lookup_fmap.
  destruct (variables ds0 !! name); destruct (decide _); done.
Qed.

(** X17. For a dataset as the provider returns it, a data variable over
    (time, depth, latitude, longitude) of shape (T, D, n, m) is written
    with the shape (1, D, n / 3, m / 3), the same axes and the type
    float32: one time step, latitude and longitude divided by the
    coarsening factor with the remainder dropped. *)
Theorem prepared_grid_shape (ds0 : Dataset) (name : string) a0
    (nt nd nlat nlon : nat) :
  open_dataset DATASET_ID VARIABLES 0%Q (1 # 2)%Q = Ok ds0 ->
  provider_contract ds0 ->
  variables ds0 !! name = Some a0 ->
  name ∈ VARIABLES ->
  dims a0 = ["time"; "depth"; "latitude"; "longitude"] ->
  shape a0 = [nt; nd; nlat; nlon] ->
  exists ds a,
    prepare open_dataset block_mean to_float32 = Ok ds ∧
    variables ds !! name = Some a ∧
    dims a = ["time"; "depth"; "latitude"; "longitude"] ∧
    shape a = [1; nd; nlat / 3; nlon / 3]%nat ∧
    dtype_of a = float32.
Proof.
  intros Hopen Hc Ha0 Hin Hd Hs.
  destruct (prepare_variables ds0 Hopen Hc) as (ts & ds & _ & Hp & Hv).
  eexists ds, _. split; [exact Hp|]. split.
  { rewrite Hv, Ha0. cbn [fmap option_fmap option_map].
    rewrite decide_True; [reflexivity|].
    unfold downcast_names. apply elem_of_app. by left. }
  cbn [astype_float32 dims shape dtype_of].
  rewrite coarsen_reduce_dims, isel_dims. split; [done|]. split; [|done].
  unfold coarsen_reduce. rewrite isel_dims, Hd.
  rewrite decide_True.
  2:{ apply Exists_cons. right. apply Exists_cons. right. apply Exists_cons.
      left. rewrite spatial_windows_lookup. rewrite decide_True by auto.
      by eexists. }
  cbn [shape]. unfold isel. rewrite Hd, Hs.
  rewrite decide_True by apply list_elem_of_here. cbn [shape zip_with].
  unfold coarsen_shape. cbn [zip_with].
  rewrite !spatial_windows_lookup. reflexivity.
Qed.

End Prepared.


End TranscoderFurther.

(** *** The further properties at sample data *)

Section TranscoderFurtherExamples.

Import subset_zarr.

Lemma latest_time_must_exist_witness :
  main (sample_open_dataset []) exact_mean quarter_floor sample_to_zarr
       sample_zarr_open
  = Raise IndexError.
Proof.
  destruct (latest_time_must_exist (sample_open_dataset []) exact_mean
              quarter_floor sample_to_zarr sample_zarr_open (sample_dataset []) eq_refl)
    as [_ H].
  by destruct (H (vector "time" datetime64 []) eq_refl eq_refl).
Defined.

Lemma select_latest_keeps_other_axes_witness :
  exists ds',
    select_latest (sample_dataset [5; 7]%Q) = Ok ds' ∧
    variables ds' !! "latitude" =
      Some (vector "latitude" float64 [10; 11; 12]%Q).
Proof.
  destruct (select_latest_keeps_other_axes (sample_dataset [5; 7]%Q)
              (vector "time" datetime64 [5; 7]%Q) [Some 5%Q; Some 7%Q]
              (Some 7%Q) eq_refl eq_refl eq_refl eq_refl)
    as (ds' & Hsel & _ & Hall).
  { by apply (bool_decide_unpack _); vm_compute. }
  exists ds'. split; [exact Hsel|].
  destruct (Hall "latitude" (vector "latitude" float64 [10; 11; 12]%Q) eq_refl)
    as (a' & Ha' & _ & _ & Hsame & _).
  rewrite Ha'. f_equal. apply Hsame.
  intros H%list_elem_of_singleton. discriminate H.
Defined.

Lemma downcast_missing_variable_witness :
  downcast quarter_floor sample_without_vo = Raise (KeyError "vo").
Proof.
  apply (downcast_missing_variable quarter_floor sample_without_vo
           ["uo"] "vo" ["latitude"; "longitude"; "depth"] eq_refl).
  - intros n Hn%list_elem_of_singleton. subst n. by eexists.
  - reflexivity.
Defined.

Lemma encoding_entries_witness :
  dom (build_encoding (sample_dataset [5; 7]%Q) ∅ encoded_names) =
    expected_names ∩ dom (variables (sample_dataset [5; 7]%Q)).
Proof. exact (proj1 (encoding_entries (sample_dataset [5; 7]%Q))). Defined.

Lemma encoding_chunks_of_grid_witness :
  exists enc,
    build_encoding (sample_dataset [5; 7]%Q) ∅ encoded_names !! "vo" = Some enc ∧
    enc_chunks enc = Some [1; 1; 170; 240]%nat.
Proof.
  apply (encoding_chunks_of_grid (sample_dataset [5; 7]%Q) "vo"
           (field float32 3 7 [grid_3x7; grid_3x7']) 2 1 3 7 eq_refl).
  - by apply (bool_decide_unpack _); vm_compute.
  - reflexivity.
  - reflexivity.
Defined.

Lemma prepared_grid_shape_witness :
  exists ds a,
    prepare (sample_open_dataset [5; 7]%Q) exact_mean quarter_floor = Ok ds ∧
    variables ds !! "uo" = Some a ∧
    shape a = [1; 1; 1; 2]%nat ∧ dtype_of a = float32.
Proof.
  destruct (prepared_grid_shape (sample_open_dataset [5; 7]%Q) exact_mean
              quarter_floor (sample_dataset [5; 7]%Q) "uo"
              (field float64 3 7 [grid_3x7'; grid_3x7]) 2 1 3 7
              eq_refl sample_contract eq_refl)
    as (ds & a & Hp & Ha & _ & Hs & Ht).
  - by apply (bool_decide_unpack _); vm_compute.
  - reflexivity.
  - reflexivity.
  - exists ds, a. split; [exact Hp|]. split; [exact Ha|].
    split; [exact Hs|exact Ht].
Defined.

Lemma find_service_is_first_match_witness :
  find_service "arco-geo-series"
    [ sample_service "arco-time-series" (Some "zarr") [];
      sample_service "arco-geo-series" (Some "sqlite") [];
      sample_service "arco-geo-series" (Some "zarr") [] ]
  = Some (sample_service "arco-geo-series" (Some "sqlite") []).
Proof.
  apply find_service_is_first_match. exists 1%nat.
  split; [reflexivity|]. split; [reflexivity|].
  intros [|j] s' Hj Hs'; [|lia]. injection Hs' as <-. discriminate.
Defined.

End TranscoderFurtherExamples.
